(** * wikiloc_export: the merge of waypoints into a trail's GeoJSON, the
    MapHub publish sequence and the navigation response check

    A shallow embedding of [src/wikiloc_export.py].  The values the script
    handles come from [page.evaluate] and [res.json()]: they are decoded
    JSON, so the embedding works on a type of JSON values and gives each
    Python operation the script applies to them ([v[k]], [k in v],
    [v.get(k)], [v[k] = x], iteration, hashing as a dict key) its meaning on
    every shape of value, with the exception Python raises where the
    operation does not apply. *)

From stdpp Require Import gmap strings list fin_maps pretty.

(** ** JSON values as Python sees them *)

(** A Python [float] other than NaN: signed zero, signed infinity, or
    [(-1)^neg * m * 2^e].  NaN is left out: as a dict key a NaN is found
    again only through object identity, which a value cannot express. *)
Inductive pyfloat :=
| FZero (neg : bool)
| FInf (neg : bool)
| FFinite (neg : bool) (m : positive) (e : Z).

(** Objects are dicts with string keys; values are trees (no two places of
    a value share one mutable object).  A string is a sequence of the
    characters of [string]. *)
#[warnings="-register-all"]
Inductive json :=
| JNull
| JBool (b : bool)
| JInt (n : Z)
| JFloat (f : pyfloat)
| JStr (s : string)
| JArr (l : list json)
| JObj (m : gmap string json).

(** ** Exceptions and results *)

Inductive exn :=
| KeyError (k : json)
| IndexError
| TypeError
| AttributeError
| RequestException
| ClickException (msg : string)
| SystemExit.

Inductive result (A : Type) :=
| Ok (a : A)
| Raise (e : exn).
Arguments Ok {A} a.
Arguments Raise {A} e.

Definition rbind {A B} (r : result A) (k : A → result B) : result B :=
  match r with
  | Ok a => k a
  | Raise e => Raise e
  end.

Notation "'let?' x := r 'in' k" := (rbind r (λ x, k))
  (at level 10, x pattern, r at level 100, k at level 200, only parsing).

(** ** Python operations on JSON values *)

(** [v[k]] for a string [k]: only a dict can be subscripted by a string. *)
Definition getitem (v : json) (k : string) : result json :=
  match v with
  | JObj m =>
      match m !! k with
      | Some x => Ok x
      | None => Raise (KeyError (JStr k))
      end
  | _ => Raise TypeError
  end.

(** The one-character strings of a string, in order. *)
Definition chars (s : string) : list json :=
  (λ c, JStr (String c EmptyString)) <$> String.list_ascii_of_string s.

(** [v[i]] for a non-negative integer literal [i].  A decoded JSON object
    has string keys only, so an integer key is never found. *)
Definition getitem_int (v : json) (i : nat) : result json :=
  match v with
  | JArr l =>
      match l !! i with
      | Some x => Ok x
      | None => Raise IndexError
      end
  | JStr s =>
      match chars s !! i with
      | Some x => Ok x
      | None => Raise IndexError
      end
  | JObj _ => Raise (KeyError (JInt (Z.of_nat i)))
  | _ => Raise TypeError
  end.

(** [needle in hay] on two strings. *)
Fixpoint is_substring (needle hay : string) : bool :=
  String.prefix needle hay ||
  match hay with
  | EmptyString => false
  | String _ hay' => is_substring needle hay'
  end.

(** [x == k] for a string [k]. *)
Definition eq_str (k : string) (x : json) : bool :=
  match x with
  | JStr s => bool_decide (s = k)
  | _ => false
  end.

(** [k in v] for a string [k]: key of a dict, element of a list, substring
    of a string. *)
Definition contains (k : string) (v : json) : result bool :=
  match v with
  | JObj m => Ok (bool_decide (is_Some (m !! k)))
  | JArr l => Ok (existsb (eq_str k) l)
  | JStr s => Ok (is_substring k s)
  | _ => Raise TypeError
  end.

(** [v.get(k, d)]: a method of dicts only. *)
Definition get (v : json) (k : string) (d : json) : result json :=
  match v with
  | JObj m => Ok (default d (m !! k))
  | _ => Raise AttributeError
  end.

(** [v[k] = x] for a string [k], as the value [v] becomes. *)
Definition setitem (v : json) (k : string) (x : json) : result json :=
  match v with
  | JObj m => Ok (JObj (<[k := x]> m))
  | _ => Raise TypeError
  end.

(** The elements [for x in v] visits.  A dict yields its keys; their order
    is the map's, not Python's insertion order, and nothing below depends
    on it. *)
Definition iter (v : json) : result (list json) :=
  match v with
  | JArr l => Ok l
  | JStr s => Ok (chars s)
  | JObj m => Ok ((λ kv, JStr kv.1) <$> map_to_list m)
  | _ => Raise TypeError
  end.

(** ** Dict keys *)

(** Hashable JSON values up to Python's [==]: [True], [1] and [1.0] are
    one key, [0], [0.0] and [-0.0] another.  [KFrac neg m e] is the
    non-integral [(-1)^neg * m / 2^e] with [m] odd. *)
Inductive pykey :=
| KNone
| KStr (s : string)
| KInt (n : Z)
| KFrac (neg : bool) (m e : positive)
| KInf (neg : bool).

Global Instance pykey_eq_dec : EqDecision pykey.
Proof. solve_decision. Defined.

Definition pykey_enc (k : pykey) : unit + string + Z + bool * positive * positive + bool :=
  match k with
  | KNone => inl (inl (inl (inl ())))
  | KStr s => inl (inl (inl (inr s)))
  | KInt n => inl (inl (inr n))
  | KFrac b m e => inl (inr (b, m, e))
  | KInf b => inr b
  end.

Definition pykey_dec (x : unit + string + Z + bool * positive * positive + bool) : pykey :=
  match x with
  | inl (inl (inl (inl ()))) => KNone
  | inl (inl (inl (inr s))) => KStr s
  | inl (inl (inr n)) => KInt n
  | inl (inr (b, m, e)) => KFrac b m e
  | inr b => KInf b
  end.

Global Instance pykey_countable : Countable pykey.
Proof. refine (inj_countable' pykey_enc pykey_dec _). by intros []. Defined.

(** Halve [m] while it is even, at most [d] times. *)
Fixpoint halve (m : positive) (d : nat) : positive * nat :=
  match d, m with
  | S d', xO m' => halve m' d'
  | _, _ => (m, d)
  end.

Definition signed (neg : bool) (n : Z) : Z := if neg then (- n)%Z else n.

Definition float_key (f : pyfloat) : pykey :=
  match f with
  | FZero _ => KInt 0
  | FInf neg => KInf neg
  | FFinite neg m e =>
      if decide (0 ≤ e)%Z then KInt (signed neg (Z.pos m * 2 ^ e))
      else
        match halve m (Z.to_nat (- e)) with
        | (m', O) => KInt (signed neg (Z.pos m'))
        | (m', S d) => KFrac neg m' (Pos.of_succ_nat d)
        end
  end.

(** The key a value is as a dict key or set member; lists and dicts are
    unhashable. *)
Definition hash_key (v : json) : result pykey :=
  match v with
  | JNull => Ok KNone
  | JBool b => Ok (KInt (if b then 1 else 0))
  | JInt n => Ok (KInt n)
  | JFloat f => Ok (float_key f)
  | JStr s => Ok (KStr s)
  | JArr _ | JObj _ => Raise TypeError
  end.

(** ** The category-to-icon table *)

(** [MARKER_DICT] after the module has loaded (lines 35-44): a
    [defaultdict] whose factory returns ["location-pin"]. *)
Definition MARKER_DICT : gmap pykey string :=
  {[ KStr "Intersection" := "crossing";
     KStr "Cave" := "summit";
     KStr "River" := "dam";
     KStr "Tree" := "forest";
     KStr "Waterfall" := "dam";
     KStr "Museum" := "museum";
     KStr "Castle" := "museum" ]}.

(** The merge runs in a state monad over the table, the one object of the
    process it can change besides its argument; an exception keeps the
    table as it was when raised. *)
Definition M (A : Type) : Type :=
  gmap pykey string → gmap pykey string * result A.

Definition ret {A} (a : A) : M A := λ t, (t, Ok a).

Definition lift {A} (r : result A) : M A := λ t, (t, r).

Definition bind {A B} (c : M A) (k : A → M B) : M B :=
  λ t, match c t with
       | (t', Ok a) => k a t'
       | (t', Raise e) => (t', Raise e)
       end.

Notation "'let!' x := c 'in' k" := (bind c (λ x, k))
  (at level 10, x pattern, c at level 100, k at level 200, only parsing).

(** [MARKER_DICT[k]]: [defaultdict.__getitem__] stores the factory's value
    under a missing key before returning it. *)
Definition marker_getitem (k : pykey) : M string :=
  λ t, match t !! k with
       | Some icon => (t, Ok icon)
       | None => (<[k := "location-pin"]> t, Ok "location-pin")
       end.

(** What a lookup of [k] returns in table state [t]. *)
Definition icon_of (t : gmap pykey string) (k : pykey) : string :=
  default "location-pin" (t !! k).

(** The table after the lookups [ks], one after the other. *)
Definition lookups (ks : list pykey) (t : gmap pykey string) : gmap pykey string :=
  foldl (λ t k, (marker_getitem k t).1) t ks.

(** The category mapping in the specification's words: a lookup in the
    explicit finite table, else the fixed default icon. *)
Definition icon_table : list (string * string) :=
  [ ("Intersection", "crossing");
    ("Cave", "summit");
    ("River", "dam");
    ("Tree", "forest");
    ("Waterfall", "dam");
    ("Museum", "museum");
    ("Castle", "museum") ].

Fixpoint table_lookup (table : list (string * string)) (c : string) : option string :=
  match table with
  | [] => None
  | (label, icon) :: table' =>
      if decide (c = label) then Some icon else table_lookup table' c
  end.

Definition spec_icon (category : option string) : string :=
  match category with
  | Some c => default "location-pin" (table_lookup icon_table c)
  | None => "location-pin"
  end.

(** [for x in l: body(x)], collecting what each element has become. *)
Fixpoint for_each {A B} (body : A → M B) (l : list A) : M (list B) :=
  match l with
  | [] => ret []
  | x :: l' =>
      let! y := body x in
      let! ys := for_each body l' in
      ret (y :: ys)
  end.

(** The same in the exception monad alone. *)
Fixpoint rmap {A B} (body : A → result B) (l : list A) : result (list B) :=
  match l with
  | [] => Ok []
  | x :: l' =>
      let? y := body x in
      let? ys := rmap body l' in
      Ok (y :: ys)
  end.

(** A rendering of scalars for worked examples: what [str] gives for
    [None], booleans, integers and strings.  Floats and containers are
    rendered as an ellipsis: the examples hold no float, and of the text
    of a container they use only that it is no numeral. *)
Definition str_plain (v : json) : string :=
  match v with
  | JNull => "None"
  | JBool true => "True"
  | JBool false => "False"
  | JInt n => pretty n
  | JStr s => s
  | _ => "..."
  end.

Section merge.

(** [py_str v] is the text [f"{v}"] puts for a decoded JSON value [v]
    (Python's [format(v, "")], that is [str(v)]); the development holds for
    whatever it is. *)
Variable py_str : json → string.

(** The join key [f"{x}-{y}"]. *)
Definition join_key (x y : json) : string :=
  py_str x +:+ "-" +:+ py_str y.

(** Line 49, key of one waypoint: [f"{w['lon']}-{w['lat']}"]. *)
Definition waypoint_key (w : json) : result string :=
  let? lon := getitem w "lon" in
  let? lat := getitem w "lat" in
  Ok (join_key lon lat).

(** Line 49: the dict comprehension, a later waypoint replacing an earlier
    one under the same key. *)
Fixpoint waypoints_dict (ws : list json) (acc : gmap string json)
  : result (gmap string json) :=
  match ws with
  | [] => Ok acc
  | w :: ws' =>
      let? key := waypoint_key w in
      waypoints_dict ws' (<[key := w]> acc)
  end.

(** [f['geometry']['coordinates'][i]]. *)
Definition coordinate (f : json) (i : nat) : result json :=
  let? g := getitem f "geometry" in
  let? cs := getitem g "coordinates" in
  getitem_int cs i.

(** Line 52. *)
Definition feature_key (f : json) : result string :=
  let? c0 := coordinate f 0 in
  let? c1 := coordinate f 1 in
  Ok (join_key c0 c1).

(** The dict display of lines 56-60 once its three values are known. *)
Definition properties_of (name elevation : json) (icon : string) : gmap string json :=
  {[ "title" := name;
     "description" := JStr ("Elevation: " +:+ py_str elevation +:+ "m");
     "marker-symbol" := JStr icon ]}.

(** Line 59: [MARKER_DICT[waypoint_info.get("pictogramName")]]. *)
Definition marker_symbol (waypoint_info : json) : M string :=
  let! category := lift (get waypoint_info "pictogramName" JNull) in
  let! k := lift (hash_key category) in
  marker_getitem k.

(** Lines 56-60: the values are evaluated in the order written. *)
Definition new_properties (waypoint_info : json) : M json :=
  let! name := lift (getitem waypoint_info "name") in
  let! elevation := lift (getitem waypoint_info "elevation") in
  let! icon := marker_symbol waypoint_info in
  ret (JObj (properties_of name elevation icon)).

(** Lines 51-60, the body of the loop: the feature as the body leaves it. *)
Definition annotate (trail_waypoints_dict : gmap string json) (f : json) : M json :=
  let! has_geometry := lift (contains "geometry" f) in
  if has_geometry : bool then
    let! key := lift (feature_key f) in
    match trail_waypoints_dict !! key with
    | Some waypoint_info =>
        let! properties := new_properties waypoint_info in
        lift (setitem f "properties" properties)
    | None => ret f
    end
  else ret f.

(** Line 62: the set that is printed; building it hashes every waypoint's
    category. *)
Definition found_pictograms (ws : list json) : result (gset pykey) :=
  let? ks := rmap (λ waypoint_info,
                     let? category := get waypoint_info "pictogramName" JNull in
                     hash_key category) ws in
  Ok (list_to_set ks).

(** Line 65, the filter: [f.get('geometry',{}).get('type')=='Point']. *)
Definition is_point (f : json) : result bool :=
  let? g := get f "geometry" (JObj ∅) in
  let? t := get g "type" JNull in
  Ok (eq_str "Point" t).

(** Line 65, the comprehension: the features that pass the filter, each
    with its position in the list it is an element of.  Every feature is
    tested, so a feature the filter cannot be applied to raises even when
    a Point feature precedes it. *)
Fixpoint point_features (fs : list json) (i : nat) : result (list (nat * json)) :=
  match fs with
  | [] => Ok []
  | f :: fs' =>
      let? p := is_point f in
      let? rest := point_features fs' (S i) in
      Ok (if p : bool then (i, f) :: rest else rest)
  end.

(** Lines 49-62: the join pass and the diagnostic print, giving the
    features as the loop leaves them.  The features are mutated in place;
    the model carries the list of them as they have become. *)
Definition join_pass (trail_geojson trail_waypoints : json) : M (list json) :=
  let! ws := lift (iter trail_waypoints) in
  let! trail_waypoints_dict := lift (waypoints_dict ws ∅) in
  let! features := lift (getitem trail_geojson "features") in
  let! fs := lift (iter features) in
  let! fs := for_each (annotate trail_waypoints_dict) fs in
  let! _ := lift (found_pictograms ws) in
  ret fs.

(** Lines 65-66: the first Point feature gets the start colour, and the
    collection is returned.  The mutated features are written back under
    ['features'], a place only a list of dicts reaches: of another
    iterable no element passes the filter. *)
Definition color_start (trail_geojson : json) (fs : list json) : result json :=
  let? points := point_features fs 0 in
  match points with
  | [] => Raise IndexError
  | (i, f) :: _ =>
      let? properties := getitem f "properties" in
      let? properties := setitem properties "marker-color" (JStr "#3cc954") in
      let? f := setitem f "properties" properties in
      setitem trail_geojson "features" (JArr (<[i := f]> fs))
  end.

(** [update_geojson] (lines 47-66). *)
Definition update_geojson (trail_geojson trail_waypoints : json) : M json :=
  let! fs := join_pass trail_geojson trail_waypoints in
  lift (color_start trail_geojson fs).

(** *** Vocabulary of the statements *)

(** The waypoint the loop body finds for a feature, if any (lines 51-54). *)
Definition waypoint_for (trail_waypoints_dict : gmap string json) (f : json)
  : result (option json) :=
  let? has_geometry := contains "geometry" f in
  if has_geometry : bool then
    let? key := feature_key f in
    Ok (trail_waypoints_dict !! key)
  else Ok None.

(** Feature [f] carries a geometry whose join key is [key]. *)
Definition has_key (f : json) (key : string) : Prop :=
  contains "geometry" f = Ok true ∧ feature_key f = Ok key.

(** No waypoint of [ws] has the join key of feature [f]. *)
Definition unmatched (ws : list json) (f : json) : Prop :=
  ∀ key, has_key f key → Forall (λ w, waypoint_key w ≠ Ok key) ws.

(** [w] is the waypoint of [ws] that feature [f] is joined with: the last
    one that has the feature's join key. *)
Definition joined (ws : list json) (f w : json) : Prop :=
  ∃ key pre post,
    has_key f key ∧ ws = pre ++ w :: post ∧ waypoint_key w = Ok key ∧
    Forall (λ w', waypoint_key w' ≠ Ok key) post.

(** Position [i] holds the first feature of [fs] whose geometry type is
    ['Point']. *)
Definition first_point (fs : list json) (i : nat) : Prop :=
  (∃ f, fs !! i = Some f ∧ is_point f = Ok true) ∧
  ∀ j f, j < i → fs !! j = Some f → is_point f ≠ Ok true.

(** The table state [t'] extends [t]: every entry of [t] is in [t'], and
    every lookup returns in [t'] what it returns in [t]. *)
Definition extends (t t' : gmap pykey string) : Prop :=
  t ⊆ t' ∧ ∀ k, icon_of t' k = icon_of t k.

(** Feature [f'] is feature [f] but for its properties. *)
Definition same_but_properties (f f' : json) : Prop :=
  f' = f ∨ ∃ fm p, f = JObj fm ∧ f' = JObj (<["properties" := p]> fm).

(** The filter of line 65 can be applied to [f]. *)
Definition testable (f : json) : Prop := ∃ b, is_point f = Ok b.

Definition is_dict (f : json) : Prop := ∃ fm, f = JObj fm.

(** The dict [fm] once line 65 has put the start colour into its
    properties [p]. *)
Definition start_colored (fm p : gmap string json) : json :=
  JObj (<["properties" := JObj (<["marker-color" := JStr "#3cc954"]> p)]> fm).

(** A computation that leaves the table extended, whatever it returns. *)
Definition grows {A} (c : M A) : Prop :=
  ∀ t t' r, c t = (t', r) → extends t t'.

(** What lines 49 and 62 ask of every waypoint: a join key, and a
    category that can be hashed. *)
Definition usable_waypoint (w : json) : Prop :=
  ∃ key category k,
    waypoint_key w = Ok key ∧
    get w "pictogramName" JNull = Ok category ∧ hash_key category = Ok k.

(** What lines 56-57 ask of a waypoint that is joined with a feature. *)
Definition described (w : json) : Prop :=
  ∃ name elevation,
    getitem w "name" = Ok name ∧ getitem w "elevation" = Ok elevation.

(** What lines 51-52 and 65 ask of every feature: the filter applies to
    it, and if it has a geometry it has a join key. *)
Definition usable_feature (f : json) : Prop :=
  testable f ∧ (contains "geometry" f = Ok true → ∃ key, feature_key f = Ok key).

End merge.

(** ** The publish sequence and the response check *)

(** A [requests.post] call: the URL, the [Authorization] header, the
    arguments sent in the [MapHub-API-Arg] header (as the value
    [json.dumps] encodes) and the JSON body. *)
Record request := {
  req_url : string;
  req_authorization : string;
  req_api_arg : option json;
  req_json : option json;
}.

(** What the process does that the outside can see, in order. *)
Inductive event :=
| Print (line : string)
| EchoErr (line : string)
| Post (r : request).

(** The glue code runs in a writer monad over the events, with
    exceptions: the events done before an exception stay done. *)
Definition IO (A : Type) : Type := list event * result A.

Definition io_ret {A} (a : A) : IO A := ([], Ok a).

Definition io_lift {A} (r : result A) : IO A := ([], r).

Definition emit (e : event) : IO unit := ([e], Ok ()).

Definition io_bind {A B} (c : IO A) (k : A → IO B) : IO B :=
  match c with
  | (tr, Ok a) => let '(tr', r) := k a in (tr ++ tr', r)
  | (tr, Raise e) => (tr, Raise e)
  end.

Notation "'let*' x := c 'in' k" := (io_bind c (λ x, k))
  (at level 10, x pattern, c at level 100, k at level 200, only parsing).

(** A navigation response, as far as [skip_or_fail] reads it. *)
Record response := {
  status : Z;
  url : string;
}.

(** [s[0]] of a string. *)
Definition first_char (s : string) : result string :=
  match s with
  | EmptyString => Raise IndexError
  | String c _ => Ok (String c EmptyString)
  end.

(** [skip_or_fail] (lines 218-232); [str(response.status)] is the decimal
    numeral. *)
Definition skip_or_fail (response : response) (skip fail : bool) : IO unit :=
  if skip && fail then
    io_lift (Raise (ClickException "--skip and --fail cannot be used together"))
  else
    let* c := io_lift (first_char (pretty (status response))) in
    if bool_decide (c = "4") || bool_decide (c = "5") then
      if skip then
        let* _ := emit (EchoErr (pretty (status response) +:+ " error for "
                                 +:+ url response +:+ ", skipping")) in
        io_lift (Raise SystemExit)
      else if fail then
        io_lift (Raise (ClickException (pretty (status response) +:+ " error for "
                                        +:+ url response)))
      else io_ret ()
    else io_ret ().

(** The boolean the test of line 221 computes on a status, if
    [str(status)[0]] raises nothing. *)
Definition error_class (status : Z) : option bool :=
  match first_char (pretty status) with
  | Ok c => Some (bool_decide (c = "4") || bool_decide (c = "5"))
  | Raise _ => None
  end.

(** How a run of the command ends.  [main] is a click command: click
    shows a [ClickException] as an error line and exits with status 1;
    [SystemExit] raised without a code ends the process with status 0
    (the comment of line 227); any other exception is not caught and the
    interpreter prints its traceback and exits with status 1. *)
Inductive report :=
| Silent
| ErrorLine (msg : string)
| Traceback (e : exn).

Definition report_of {A} (r : result A) : report :=
  match r with
  | Ok _ => Silent
  | Raise SystemExit => Silent
  | Raise (ClickException msg) => ErrorLine ("Error: " +:+ msg)
  | Raise e => Traceback e
  end.

Definition exit_status {A} (r : result A) : Z :=
  match r with
  | Ok _ => 0
  | Raise SystemExit => 0
  | Raise _ => 1
  end.

Definition upload_url : string := "https://maphub.net/api/1/map/upload".
Definition update_url : string := "https://maphub.net/api/1/map/update".
Definition refresh_url : string := "https://maphub.net/api/1/map/refresh_image".

Section publish.

Variable py_str : json → string.

(** The credential read from the environment at line 34. *)
Variable MAPHUB_KEY : string.

(** The remote service: what [requests.post(...)] followed by
    [res.json()] gives for a request, the decoded body or the exception
    either of them raises. *)
Variable http : request → result json.

Definition post (r : request) : IO json := ([Post r], http r).

(** The request of [update_map] (lines 86-98). *)
Definition update_request (map_id geojson : json) : request :=
  {| req_url := update_url;
     req_authorization := "Token " +:+ MAPHUB_KEY;
     req_api_arg := None;
     req_json := Some (JObj {[ "map_id" := map_id;
                               "geojson" := geojson;
                               "basemap" := JStr "maphub-earth";
                               "description" := JStr "test description";
                               "visibility" := JStr "public" ]}) |}.

(** [update_map] (lines 68-105). *)
Definition update_map (map_id geojson : json) : IO unit :=
  let* data := post (update_request map_id geojson) in
  let* has_id := io_lift (contains "id" data) in
  if negb has_id then
    let* error := io_lift (getitem data "error") in
    emit (Print (py_str error))
  else emit (Print "Map updated").

(** The request of [refresh_map_image] (lines 121-129). *)
Definition refresh_request (map_id : json) : request :=
  {| req_url := refresh_url;
     req_authorization := "Token " +:+ MAPHUB_KEY;
     req_api_arg := None;
     req_json := Some (JObj {[ "map_id" := map_id ]}) |}.

(** [refresh_map_image] (lines 108-134). *)
Definition refresh_map_image (map_id : json) : IO unit :=
  let* _ := emit (Print "REFRESHING MAP IMAGE") in
  let* data := post (refresh_request map_id) in
  let* has_id := io_lift (contains "id" data) in
  if negb has_id then
    let* error := io_lift (getitem data "error") in
    emit (Print (py_str error))
  else io_ret ().

(** The request of [create_maphub_trailmap] (lines 151-165). *)
Definition create_request (trail_title trail_uri : json) : request :=
  {| req_url := upload_url;
     req_authorization := "Token " +:+ MAPHUB_KEY;
     req_api_arg := Some (JObj {[ "file_type" := JStr "empty";
                                  "title" := trail_title;
                                  "short_name" := trail_uri;
                                  "visibility" := JStr "public" ]});
     req_json := None |}.

(** [create_maphub_trailmap] (lines 137-170). *)
Definition create_maphub_trailmap (trail_title trail_uri trail_geojson : json) : IO unit :=
  let* _ := emit (Print "CREATING MAPHUB MAP") in
  let* data := post (create_request trail_title trail_uri) in
  let* map_id := io_lift (getitem data "id") in
  let* _ := update_map map_id trail_geojson in
  let* _ := refresh_map_image map_id in
  let* map_url := io_lift (getitem data "url") in
  emit (Print ("MAP CREATED! ID: '" +:+ py_str map_id +:+ "', TITLE: '"
               +:+ py_str trail_title +:+ "', URL: '" +:+ py_str map_url +:+ "'")).

End publish.

(** The requests among the events of a run of the glue code, in order. *)
Definition posted (tr : list event) : list request :=
  omap (λ e, match e with Post r => Some r | _ => None end) tr.

(** ** The extractor: browser set-up, page scripts and the trail title *)

(** Python's truth value of a value ([if v:], [not v], [a and b]). *)
Definition truthy (v : json) : bool :=
  match v with
  | JNull => false
  | JBool b => b
  | JInt n => bool_decide (n ≠ 0%Z)
  | JFloat (FZero _) => false
  | JFloat _ => true
  | JStr s => bool_decide (s ≠ "")
  | JArr l => bool_decide (length l ≠ 0)
  | JObj m => bool_decide (size m ≠ 0)
  end.

(** [v is None]. *)
Definition is_none (v : json) : bool :=
  match v with
  | JNull => true
  | _ => false
  end.

(** The keyword parameters of [_browser_context] (lines 172-185). *)
Record browser_options := {
  interactive : json;
  devtools : json;
  scale_factor : json;
  browser : json;
  browser_args : json;
  user_agent : json;
  timeout : json;
  reduced_motion : json;
  bypass_csp : json;
  auth_username : json;
  auth_password : json;
}.

(** Their default values. *)
Definition default_options : browser_options :=
  {| interactive := JBool false;
     devtools := JBool false;
     scale_factor := JNull;
     browser := JStr "chromium";
     browser_args := JNull;
     user_agent := JNull;
     timeout := JNull;
     reduced_motion := JBool false;
     bypass_csp := JBool false;
     auth_username := JNull;
     auth_password := JNull |}.

(** The calls the script makes to Playwright: entering and leaving
    [sync_playwright()], [p.<engine>.launch],
    [browser_obj.new_context], [context.set_default_timeout],
    [context.new_page()], [page.goto], [page.evaluate] and
    [browser_obj.close()]. *)
Inductive call :=
| Start
| Launch (engine : string) (kwargs : gmap string json)
| NewContext (args : gmap string json)
| SetDefaultTimeout (value : json)
| NewPage
| Goto (address : string)
| Evaluate (javascript : string)
| Close
| Stop.

(** What a run does, in order: prints and requests, calls to Playwright,
    and the print of line 62, whose text is that of a set. *)
Inductive action :=
| Did (e : event)
| Called (c : call)
| PrintedPictograms (found : gset pykey).

(** How a computation that drives the browser ends: it returns, raises a
    Python exception, or a call to Playwright raises Playwright's [Error]
    with a message. *)
Inductive ended (A : Type) :=
| Returned (a : A)
| Raised (e : exn)
| PlaywrightError (message : string).
Arguments Returned {A} a.
Arguments Raised {A} e.
Arguments PlaywrightError {A} message.

Definition Run (A : Type) : Type := list action * ended A.

(** The requests among the actions of a run, in order, and its calls to
    Playwright. *)
Definition requests_of (tr : list action) : list request :=
  omap (λ a, match a with Did (Post r) => Some r | _ => None end) tr.

Definition calls_of (tr : list action) : list call :=
  omap (λ a, match a with Called c => Some c | _ => None end) tr.

Definition run_ret {A} (a : A) : Run A := ([], Returned a).

Definition run_bind {A B} (c : Run A) (k : A → Run B) : Run B :=
  match c with
  | (tr, Returned a) => let '(tr', o) := k a in (tr ++ tr', o)
  | (tr, Raised e) => (tr, Raised e)
  | (tr, PlaywrightError message) => (tr, PlaywrightError message)
  end.

Notation "'let+' x := c 'in' k" := (run_bind c (λ x, k))
  (at level 10, x pattern, c at level 100, k at level 200, only parsing).

(** The glue code of the publish sequence and of the response check, as
    part of a run. *)
Definition run_io {A} (c : IO A) : Run A :=
  (Did <$> c.1,
   match c.2 with
   | Ok a => Returned a
   | Raise e => Raised e
   end).

(** How the process ends on each outcome of a run; an uncaught
    Playwright [Error] ends it like any uncaught exception. *)
Definition ended_status {A} (o : ended A) : Z :=
  match o with
  | Returned _ => 0
  | Raised SystemExit => 0
  | Raised _ => 1
  | PlaywrightError _ => 1
  end.

(** [s.split("|", 1)]: the text before the first bar and, if there is a
    bar, the text after it. *)
Fixpoint split_bar (s : string) : list string :=
  match s with
  | EmptyString => [EmptyString]
  | String c s' =>
      if decide (String c EmptyString = "|") then [EmptyString; s']
      else
        match split_bar s' with
        | x :: rest => String c x :: rest
        | [] => []
        end
  end.

(** The characters [str.strip()] removes, among those of [string]:
    U+0009 to U+000D, U+001C to U+0020, U+0085 and U+00A0. *)
Definition is_space (c : Ascii.ascii) : bool :=
  let n := Ascii.nat_of_ascii c in
  (9 <=? n) && (n <=? 13) || (28 <=? n) && (n <=? 32) || (n =? 133) || (n =? 160).

Fixpoint lstrip (s : string) : string :=
  match s with
  | EmptyString => EmptyString
  | String c s' => if is_space c then lstrip s' else s
  end.

(** [s.strip()]. *)
Definition strip (s : string) : string :=
  String.rev (lstrip (String.rev (lstrip s))).

(** Line 260: [title.split("|",1)[1].strip()] on what the page gave as its
    title. *)
Definition trail_title_of (title : json) : result string :=
  match title with
  | JStr s =>
      match split_bar s !! 1 with
      | Some after => Ok (strip after)
      | None => Raise IndexError
      end
  | _ => Raise AttributeError
  end.

(** The page scripts of lines 245-249. *)
Definition trail_waypoints_js : string := "mapData.waypoints".

Definition trail_geojson_js : string :=
  "var collection = {'type':'FeatureCollection','features':[]}; trailMap.eachLayer(function (layer) {if (typeof(layer.toGeoJSON) === 'function') collection.features.push(layer.toGeoJSON())}); collection".

Definition title_js : string := "document.title".

Definition uri_js : string := "window.location.pathname".

(** The keyword arguments of [launch] (lines 186-188), with the channel
    of line 196 when the browser is none of the three engines. *)
Definition browser_kwargs (o : browser_options) : gmap string json :=
  let kwargs : gmap string json :=
    {[ "headless" := JBool (negb (truthy (interactive o)));
       "devtools" := devtools o;
       "args" := browser_args o ]} in
  if eq_str "chromium" (browser o) || eq_str "firefox" (browser o)
     || eq_str "webkit" (browser o)
  then kwargs
  else <["channel" := browser o]> kwargs.

(** The engine launched (lines 189-197). *)
Definition engine_of (o : browser_options) : string :=
  if eq_str "chromium" (browser o) then "chromium"
  else if eq_str "firefox" (browser o) then "firefox"
  else if eq_str "webkit" (browser o) then "webkit"
  else "chromium".

(** The keyword arguments of [new_context] (lines 198-211), each
    assignment in turn. *)
Definition context_args (o : browser_options) : gmap string json :=
  let a : gmap string json := ∅ in
  let a := if truthy (scale_factor o)
           then <["device_scale_factor" := scale_factor o]> a else a in
  let a := if truthy (reduced_motion o)
           then <["reduced_motion" := JStr "reduce"]> a else a in
  let a := if is_none (user_agent o)
           then a else <["user_agent" := user_agent o]> a in
  let a := if truthy (bypass_csp o)
           then <["bypass_csp" := bypass_csp o]> a else a in
  if truthy (auth_username o) && truthy (auth_password o)
  then <["http_credentials" :=
           JObj {[ "username" := auth_username o;
                   "password" := auth_password o ]}]> a
  else a.

(** The calls of a session that goes well, in order: those up to the
    navigation, the four evaluations, and the two that end it. *)
Definition opening_calls (wikiloc_url : string) : list call :=
  [Start;
   Launch "chromium" {[ "headless" := JBool true;
                        "devtools" := JBool false;
                        "args" := JNull ]};
   NewContext ∅;
   NewPage;
   Goto wikiloc_url].

Definition session_calls (wikiloc_url : string) : list call :=
  opening_calls wikiloc_url ++
  [Evaluate trail_geojson_js; Evaluate trail_waypoints_js;
   Evaluate title_js; Evaluate uri_js; Close; Stop].

Section extract.

(** The browser, as far as the script depends on it: [fails c] is the
    message of the [Error] the call [c] raises, if it raises one;
    [goes_to url] is what [page.goto(url)] returns when it returns, a
    response or [None]; [evaluates js] is what [page.evaluate(js)] returns
    when it returns. *)
Variable fails : call → option string.
Variable goes_to : string → option response.
Variable evaluates : string → json.

(** A call to Playwright that returns nothing the script reads. *)
Definition perform (c : call) : Run unit :=
  match fails c with
  | Some message => ([Called c], PlaywrightError message)
  | None => ([Called c], Returned ())
  end.

(** [_browser_context] (lines 172-215). *)
Definition _browser_context (o : browser_options) : Run unit :=
  let+ _ := perform (Launch (engine_of o) (browser_kwargs o)) in
  let+ _ := perform (NewContext (context_args o)) in
  if truthy (timeout o) then perform (SetDefaultTimeout (timeout o))
  else run_ret ().

(** [page.goto(url)]. *)
Definition goto (address : string) : Run (option response) :=
  match fails (Goto address) with
  | Some message => ([Called (Goto address)], PlaywrightError message)
  | None => ([Called (Goto address)], Returned (goes_to address))
  end.

(** [_evaluate_js] (lines 235-239): Playwright's [Error] becomes a
    [ClickException] with its message. *)
Definition _evaluate_js (javascript : string) : Run json :=
  match fails (Evaluate javascript) with
  | Some message => ([Called (Evaluate javascript)], Raised (ClickException message))
  | None => ([Called (Evaluate javascript)], Returned (evaluates javascript))
  end.

(** [with sync_playwright() as p: body]: the body runs once the manager
    is entered, and the manager is left however the body ends. *)
Definition with_playwright {A} (body : Run A) : Run A :=
  match fails Start with
  | Some message => ([Called Start], PlaywrightError message)
  | None =>
      let '(tr, o) := body in
      match fails Stop with
      | Some message => (Called Start :: tr ++ [Called Stop], PlaywrightError message)
      | None => (Called Start :: tr ++ [Called Stop], o)
      end
  end.

(** [skip_or_fail(response)] of line 257: [page.goto] may have returned
    [None], which has no [status]. *)
Definition check_response (r : option response) : Run unit :=
  run_io (match r with
          | Some r => skip_or_fail r false true
          | None => io_lift (Raise AttributeError)
          end).

(** [get_wikiloc_data] (lines 242-264): the four values are bound inside
    the [with] block and returned once it is left. *)
Definition get_wikiloc_data (wikiloc_url : string) : Run (json * json * string * json) :=
  let+ _ := run_io (emit (Print ("GETTING WIKILOC DATA FROM URL " +:+ wikiloc_url))) in
  with_playwright (
    let+ _ := _browser_context default_options in
    let+ _ := perform NewPage in
    let+ response := goto wikiloc_url in
    let+ _ := check_response response in
    let+ trail_geojson := _evaluate_js trail_geojson_js in
    let+ trail_waypoints := _evaluate_js trail_waypoints_js in
    let+ title := _evaluate_js title_js in
    let+ trail_title := run_io (io_lift (trail_title_of title)) in
    let+ trail_uri := _evaluate_js uri_js in
    let+ _ := perform Close in
    run_ret (trail_geojson, trail_waypoints, trail_title, trail_uri)).

Variable py_str : json → string.
Variable MAPHUB_KEY : string.
Variable http : request → result json.

(** The set line 62 prints, once the join pass has got that far. *)
Definition pictograms_of (trail_waypoints : json) : gset pykey :=
  match iter trail_waypoints with
  | Ok ws =>
      match found_pictograms ws with
      | Ok found => found
      | Raise _ => ∅
      end
  | Raise _ => ∅
  end.

(** [update_geojson] as part of a run, from the table state [t]: what it
    prints, how it ends and the table state it leaves. *)
Definition run_update_geojson (trail_geojson trail_waypoints : json)
    (t : gmap pykey string) : gmap pykey string * Run json :=
  match join_pass py_str trail_geojson trail_waypoints t with
  | (t', Ok fs) =>
      (t', ([PrintedPictograms (pictograms_of trail_waypoints)],
            match color_start trail_geojson fs with
            | Ok updated => Returned updated
            | Raise e => Raised e
            end))
  | (t', Raise e) => (t', ([], Raised e))
  end.

(** [main] (lines 267-272), from the table state [t]. *)
Definition main (trail_url : string) (t : gmap pykey string)
  : gmap pykey string * Run unit :=
  match get_wikiloc_data trail_url with
  | (tr, Returned (trail_geojson, trail_waypoints, trail_title, trail_uri)) =>
      match run_update_geojson trail_geojson trail_waypoints t with
      | (t', (tr', Returned updated_geojson)) =>
          let '(tr'', o) :=
            run_io (create_maphub_trailmap py_str MAPHUB_KEY http
                      (JStr trail_title) trail_uri updated_geojson) in
          (t', (tr ++ tr' ++ tr'', o))
      | (t', (tr', Raised e)) => (t', (tr ++ tr', Raised e))
      | (t', (tr', PlaywrightError message)) =>
          (t', (tr ++ tr', PlaywrightError message))
      end
  | (tr, Raised e) => (t, (tr, Raised e))
  | (tr, PlaywrightError message) => (t, (tr, PlaywrightError message))
  end.

End extract.

(** ** Inputs of the worked examples *)

Definition ex_point (x y : Z) (properties : option json) : json :=
  let f : gmap string json :=
    {[ "type" := JStr "Feature";
       "geometry" := JObj {[ "type" := JStr "Point";
                             "coordinates" := JArr [JInt x; JInt y] ]} ]} in
  JObj (match properties with
        | Some p => <["properties" := p]> f
        | None => f
        end).

(** A path; its join key is made of the texts of two lists, which no
    waypoint's key is. *)
Definition ex_line : json :=
  JObj {[ "type" := JStr "Feature";
          "properties" := JObj ∅;
          "geometry" :=
            JObj {[ "type" := JStr "LineString";
                    "coordinates" := JArr [JArr [JInt 1; JInt 2];
                                           JArr [JInt 3; JInt 4]] ]} ]}.

Definition ex_waypoint (lon lat : Z) (name : string) (elevation : Z)
    (category : option string) : json :=
  let w : gmap string json :=
    {[ "lon" := JInt lon; "lat" := JInt lat;
       "name" := JStr name; "elevation" := JInt elevation ]} in
  JObj (match category with
        | Some c => <["pictogramName" := JStr c]> w
        | None => w
        end).

Definition ex_collection (features : list json) : json :=
  JObj {[ "type" := JStr "FeatureCollection"; "features" := JArr features ]}.

(** The scenario of the specification, with integer coordinates: one
    Point and the waypoint at its place. *)
Definition ex_peak_geojson : json := ex_collection [ex_point 1 2 None].

Definition ex_peak_waypoints : json :=
  JArr [ex_waypoint 1 2 "Peak" 850 (Some "Cave")].

Definition ex_peak_properties : gmap string json :=
  {[ "title" := JStr "Peak";
     "description" := JStr "Elevation: 850m";
     "marker-symbol" := JStr "summit";
     "marker-color" := JStr "#3cc954" ]}.

Definition ex_peak_merged : json :=
  ex_collection [ex_point 1 2 (Some (JObj ex_peak_properties))].

(** A trail: its path, the start, a hut of a category the table does not
    list, and a point no waypoint is at. *)
Definition ex_hut : json :=
  ex_point 3 4 (Some (JObj {[ "note" := JStr "old" ]})).

Definition ex_cairn : json :=
  ex_point 5 6 (Some (JObj {[ "note" := JStr "kept" ]})).

Definition ex_trail_features : list json :=
  [ex_line; ex_point 1 2 None; ex_hut; ex_cairn].

Definition ex_hut_waypoint : json :=
  ex_waypoint 3 4 "Hut" 1200 (Some "Bridge").

Definition ex_trail_waypoints : list json :=
  [ex_waypoint 1 2 "Peak" 850 (Some "Cave"); ex_hut_waypoint].

Definition ex_trail_geojson : json := ex_collection ex_trail_features.

Definition ex_hut_properties : gmap string json :=
  {[ "title" := JStr "Hut";
     "description" := JStr "Elevation: 1200m";
     "marker-symbol" := JStr "location-pin" ]}.

Definition ex_trail_merged : json :=
  ex_collection [ex_line;
                 ex_point 1 2 (Some (JObj ex_peak_properties));
                 ex_point 3 4 (Some (JObj ex_hut_properties));
                 ex_cairn].

Definition ex_trail_table : gmap pykey string :=
  <[KStr "Bridge" := "location-pin"]> MARKER_DICT.

(** A path alone, and a path with a Point that has no properties and that
    no waypoint is at. *)
Definition ex_path_features : list json := [ex_line].

Definition ex_bare_features : list json := [ex_line; ex_point 5 6 None].

(** A path and a cairn away from every waypoint of the trail, before and
    after the merge. *)
Definition ex_lonely_features : list json := [ex_line; ex_cairn].

Definition ex_lonely_merged : json :=
  ex_collection
    [ex_line;
     ex_point 5 6 (Some (JObj {[ "note" := JStr "kept";
                                 "marker-color" := JStr "#3cc954" ]}))].

(** A service that rejects every request, and one that creates the map
    and then rejects its content. *)
Definition ex_http_rejects (r : request) : result json :=
  Ok (JObj {[ "error" := JStr "Invalid API key" ]}).

Definition ex_http_rejects_content (r : request) : result json :=
  if decide (req_url r = upload_url) then
    Ok (JObj {[ "id" := JInt 7; "url" := JStr "https://maphub.net/u/trail" ]})
  else if decide (req_url r = update_url) then
    Ok (JObj {[ "error" := JStr "Invalid GeoJSON" ]})
  else Ok (JObj {[ "id" := JInt 7 ]}).

Definition ex_response (status : Z) : response :=
  {| status := status; url := "https://www.wikiloc.com/hiking-trails/x-1" |}.

(** Two waypoints at the same place, and the lookup line 49 builds of
    them. *)
Definition ex_revisited_waypoints : list json :=
  [ex_waypoint 1 2 "Old" 1 None; ex_waypoint 1 2 "Peak" 850 (Some "Cave")].

Definition ex_revisited_dict : gmap string json :=
  {[ "1-2" := ex_waypoint 1 2 "Peak" 850 (Some "Cave") ]}.

(** A service that accepts every request; one that rejects the refresh;
    one whose create response holds no url; one whose update response
    holds neither id nor error. *)
Definition ex_http_accepts (r : request) : result json :=
  if decide (req_url r = upload_url) then
    Ok (JObj {[ "id" := JInt 7; "url" := JStr "https://maphub.net/u/trail" ]})
  else Ok (JObj {[ "id" := JInt 7 ]}).

Definition ex_http_rejects_refresh (r : request) : result json :=
  if decide (req_url r = upload_url) then
    Ok (JObj {[ "id" := JInt 7; "url" := JStr "https://maphub.net/u/trail" ]})
  else if decide (req_url r = update_url) then
    Ok (JObj {[ "id" := JInt 7 ]})
  else Ok (JObj {[ "error" := JStr "Map not found" ]}).

Definition ex_http_no_url (r : request) : result json :=
  Ok (JObj {[ "id" := JInt 7 ]}).

Definition ex_http_empty_update (r : request) : result json :=
  if decide (req_url r = upload_url) then
    Ok (JObj {[ "id" := JInt 7; "url" := JStr "https://maphub.net/u/trail" ]})
  else Ok (JObj ∅).

(** A browser no call of which fails, on a page that answers with the
    given status and whose scripts give the trail. *)
Definition ex_url : string := "https://www.wikiloc.com/hiking-trails/x-1".

Definition ex_fails (c : call) : option string := None.

Definition ex_goes_to (status : Z) (address : string) : option response :=
  Some (ex_response status).

Definition ex_evaluates (javascript : string) : json :=
  if decide (javascript = trail_geojson_js) then ex_trail_geojson
  else if decide (javascript = trail_waypoints_js) then JArr ex_trail_waypoints
  else if decide (javascript = title_js) then JStr "Wikiloc | Trail of the hut "
  else JStr "/hiking-trails/x-1".

(** * Properties *)

(** ** The exception and state monads *)

Lemma rbind_ok {A B} (r : result A) (k : A → result B) b :
  rbind r k = Ok b → ∃ a, r = Ok a ∧ k a = Ok b.
Proof. destruct r as [a|e]; simpl; [eauto | discriminate]. Qed.

Lemma bind_ok {A B} (c : M A) (k : A → M B) t t' b :
  bind c k t = (t', Ok b) → ∃ t1 a, c t = (t1, Ok a) ∧ k a t1 = (t', Ok b).
Proof.
  unfold bind. destruct (c t) as [t1 [a|e]]; [eauto | discriminate].
Qed.

Lemma lift_ok {A} (r : result A) t t' a :
  lift r t = (t', Ok a) → t' = t ∧ r = Ok a.
Proof. unfold lift. by intros [= -> ->]. Qed.

Lemma ret_ok {A} (x : A) t t' a : ret x t = (t', Ok a) → t' = t ∧ a = x.
Proof. unfold ret. by intros [= -> ->]. Qed.

(** Take a successful run apart, one binding at a time. *)
Ltac inv_ok :=
  repeat match goal with
    | H : bind _ _ _ = (_, Ok _) |- _ =>
        let t := fresh "t" in let a := fresh "a" in
        let H1 := fresh "H" in
        apply bind_ok in H as (t & a & H1 & H)
    | H : lift _ _ = (_, Ok _) |- _ => apply lift_ok in H as [-> H]
    | H : ret _ _ = (_, Ok _) |- _ => apply ret_ok in H as [-> ->]
    | H : rbind _ _ = Ok _ |- _ =>
        let a := fresh "a" in let H1 := fresh "H" in
        apply rbind_ok in H as (a & H1 & H)
    | H : Ok _ = Ok _ |- _ => injection H as H; try subst
    end.

(** ** The table only grows, and no lookup changes its answer *)

Lemma marker_getitem_eq k t :
  marker_getitem k t = (<[k := icon_of t k]> t, Ok (icon_of t k)).
Proof.
  unfold marker_getitem, icon_of.
  destruct (t !! k) as [icon|] eqn:E; simpl; [|done].
  by rewrite insert_id.
Qed.

Lemma icon_of_insert k t k' :
  icon_of (<[k := icon_of t k]> t) k' = icon_of t k'.
Proof.
  unfold icon_of. destruct (decide (k = k')) as [->|Hne].
  - by rewrite lookup_insert_eq.
  - by rewrite lookup_insert_ne.
Qed.

Lemma extends_refl t : extends t t.
Proof. by split. Qed.

Lemma extends_trans t1 t2 t3 : extends t1 t2 → extends t2 t3 → extends t1 t3.
Proof.
  intros [S1 I1] [S2 I2]. split; [by etrans|].
  intros k. by rewrite I2.
Qed.

Lemma extends_insert k t : extends t (<[k := icon_of t k]> t).
Proof.
  split; [|apply icon_of_insert].
  unfold icon_of. destruct (t !! k) as [icon|] eqn:E; simpl.
  - by rewrite insert_id.
  - by apply insert_subseteq.
Qed.

Lemma extends_lookup t t' k : extends t t' → is_Some (t !! k) → t' !! k = t !! k.
Proof.
  intros [Hsub _] [v Hv]. rewrite Hv.
  by eapply lookup_weaken.
Qed.

Lemma grows_ret {A} (a : A) : grows (ret a).
Proof. intros t t' r [= <- _]. apply extends_refl. Qed.

Lemma grows_lift {A} (x : result A) : grows (lift x).
Proof. intros t t' r [= <- _]. apply extends_refl. Qed.

Lemma grows_bind {A B} (c : M A) (k : A → M B) :
  grows c → (∀ a, grows (k a)) → grows (bind c k).
Proof.
  intros Hc Hk t t' r. unfold bind.
  destruct (c t) as [t1 [a|e]] eqn:E; intros H.
  - eapply extends_trans; [by eapply Hc | by eapply Hk].
  - injection H as <- _. by eapply Hc.
Qed.

Lemma grows_marker_getitem k : grows (marker_getitem k).
Proof.
  intros t t' r. rewrite marker_getitem_eq. intros [= <- _].
  apply extends_insert.
Qed.

Lemma grows_for_each {A B} (body : A → M B) l :
  (∀ x, grows (body x)) → grows (for_each body l).
Proof.
  intros Hb. induction l as [|x l IH]; simpl.
  - apply grows_ret.
  - apply grows_bind; [done|]. intros y.
    apply grows_bind; [done|]. intros ys. apply grows_ret.
Qed.

Ltac grows_tac :=
  repeat first
    [ apply grows_ret | apply grows_lift | apply grows_marker_getitem
    | apply grows_for_each; intros ?
    | apply grows_bind; [|intros ?]
    | match goal with
      | |- grows (if ?b then _ else _) => destruct b
      | |- grows (match ?o with Some _ => _ | None => _ end) => destruct o
      end ].

Lemma lookups_extends ks t : extends t (lookups ks t).
Proof.
  revert t. induction ks as [|k ks IH]; intros t; simpl.
  - apply extends_refl.
  - eapply extends_trans; [|apply IH].
    rewrite marker_getitem_eq. apply extends_insert.
Qed.

Lemma icon_of_MARKER_DICT_str c :
  icon_of MARKER_DICT (KStr c) = spec_icon (Some c).
Proof.
  unfold icon_of, MARKER_DICT, spec_icon, icon_table. simpl table_lookup.
  repeat case_decide; subst;
    repeat (rewrite lookup_insert_ne; [|congruence]);
    try (by rewrite lookup_insert_eq).
  - by rewrite lookup_singleton_eq.
  - rewrite lookup_singleton_ne; [done|congruence].
Qed.

Lemma icon_of_MARKER_DICT_None : icon_of MARKER_DICT KNone = "location-pin".
Proof. reflexivity. Qed.

Lemma marker_symbol_eq (waypoint : gmap string json) k t :
  hash_key (default JNull (waypoint !! "pictogramName")) = Ok k →
  marker_symbol (JObj waypoint) t = (<[k := icon_of t k]> t, Ok (icon_of t k)).
Proof.
  intros Hk. unfold marker_symbol, bind, lift. simpl. rewrite Hk.
  apply marker_getitem_eq.
Qed.

(** C3. The category-to-icon mapping is total on labels and on the absent
    label: in every state of the table that lookups can have brought
    about, looking up a waypoint's category label [c] returns the icon the
    explicit table gives for [c], or ["location-pin"] when the table has
    no entry for [c]; a null or a missing [pictogramName] returns
    ["location-pin"]. *)
Theorem category_icon_total (ks : list pykey) (waypoint : gmap string json) :
  let t := lookups ks MARKER_DICT in
  (∀ c, (marker_symbol (JObj (<["pictogramName" := JStr c]> waypoint)) t).2
        = Ok (spec_icon (Some c))) ∧
  (marker_symbol (JObj (<["pictogramName" := JNull]> waypoint)) t).2
    = Ok (spec_icon None) ∧
  (marker_symbol (JObj (delete "pictogramName" waypoint)) t).2
    = Ok (spec_icon None) ∧
  (∀ c, spec_icon (Some c) = icon_of MARKER_DICT (KStr c)) ∧
  spec_icon None = "location-pin".
Proof.
  intros t.
  assert (Ht : ∀ k, icon_of t k = icon_of MARKER_DICT k)
    by apply lookups_extends.
  split_and!.
  - intros c. rewrite (marker_symbol_eq _ (KStr c)).
    + simpl. by rewrite Ht, icon_of_MARKER_DICT_str.
    + by rewrite lookup_insert_eq.
  - rewrite (marker_symbol_eq _ KNone).
    + simpl. by rewrite Ht.
    + by rewrite lookup_insert_eq.
  - rewrite (marker_symbol_eq _ KNone).
    + simpl. by rewrite Ht.
    + by rewrite lookup_delete_eq.
  - intros c. by rewrite icon_of_MARKER_DICT_str.
  - done.
Qed.

Section table_facts.

Variable py_str : json → string.

Lemma grows_annotate wd f : grows (annotate py_str wd f).
Proof. unfold annotate. grows_tac. Qed.

Lemma grows_join_pass g w : grows (join_pass py_str g w).
Proof. unfold join_pass. grows_tac. Qed.

Lemma grows_update_geojson g w : grows (update_geojson py_str g w).
Proof. unfold update_geojson. grows_tac. Qed.

(** *** One feature *)

Lemma annotate_unfold wd f t :
  annotate py_str wd f t =
  match waypoint_for py_str wd f with
  | Ok (Some w) =>
      bind (new_properties py_str w) (λ p, lift (setitem f "properties" p)) t
  | Ok None => (t, Ok f)
  | Raise e => (t, Raise e)
  end.
Proof.
  unfold annotate, waypoint_for, bind, lift, ret.
  destruct (contains "geometry" f) as [[]|]; simpl; [|done..].
  destruct (feature_key py_str f) as [key|]; simpl; [|done].
  by destruct (wd !! key).
Qed.

Lemma new_properties_eq w name elevation category k t :
  getitem w "name" = Ok name →
  getitem w "elevation" = Ok elevation →
  get w "pictogramName" JNull = Ok category →
  hash_key category = Ok k →
  new_properties py_str w t =
    (<[k := icon_of t k]> t,
     Ok (JObj (properties_of py_str name elevation (icon_of t k)))).
Proof.
  intros Hn He Hc Hk.
  unfold new_properties, marker_symbol, bind, lift, ret.
  rewrite Hn, He, Hc, Hk. by rewrite marker_getitem_eq.
Qed.

Lemma new_properties_ok w t t' p :
  new_properties py_str w t = (t', Ok p) →
  ∃ name elevation category k,
    getitem w "name" = Ok name ∧ getitem w "elevation" = Ok elevation ∧
    get w "pictogramName" JNull = Ok category ∧ hash_key category = Ok k.
Proof.
  unfold new_properties, marker_symbol. intros H. inv_ok. eauto 10.
Qed.

(** A feature the loop joins with waypoint [w] is a dict; it gets the
    three properties, with the icon the table gives at that moment. *)
Lemma annotate_joined wd f w t t' f1 :
  waypoint_for py_str wd f = Ok (Some w) →
  annotate py_str wd f t = (t', Ok f1) →
  ∃ fm name elevation category k,
    f = JObj fm ∧
    getitem w "name" = Ok name ∧ getitem w "elevation" = Ok elevation ∧
    get w "pictogramName" JNull = Ok category ∧ hash_key category = Ok k ∧
    t' = <[k := icon_of t k]> t ∧
    f1 = JObj (<["properties" :=
                  JObj (properties_of py_str name elevation (icon_of t k))]> fm).
Proof.
  intros Hw. rewrite annotate_unfold, Hw. intros H.
  apply bind_ok in H as (t1 & p & Hp & H). apply lift_ok in H as [-> H].
  destruct (new_properties_ok _ _ _ _ Hp) as (name & el & c & k & Hn & He & Hc & Hk).
  rewrite (new_properties_eq _ _ _ _ _ _ Hn He Hc Hk) in Hp.
  injection Hp as <- <-.
  destruct f as [| | | | | |fm]; try discriminate.
  injection H as <-. by exists fm, name, el, c, k.
Qed.

Lemma annotate_unjoined wd f t t' f1 :
  waypoint_for py_str wd f = Ok None →
  annotate py_str wd f t = (t', Ok f1) → t' = t ∧ f1 = f.
Proof. intros Hw. rewrite annotate_unfold, Hw. by intros [= -> ->]. Qed.

Lemma annotate_waypoint_for wd f t t' f1 :
  annotate py_str wd f t = (t', Ok f1) → ∃ o, waypoint_for py_str wd f = Ok o.
Proof.
  rewrite annotate_unfold.
  destruct (waypoint_for py_str wd f) as [o|]; [eauto | discriminate].
Qed.

(** Replacing the properties of a feature changes neither its join key,
    nor the waypoint found for it, nor whether it is a Point. *)
Lemma waypoint_for_set_properties wd fm p :
  waypoint_for py_str wd (JObj (<["properties" := p]> fm))
  = waypoint_for py_str wd (JObj fm).
Proof.
  unfold waypoint_for, feature_key, coordinate. simpl.
  by rewrite !lookup_insert_ne.
Qed.

Lemma has_key_set_properties fm p key :
  has_key py_str (JObj (<["properties" := p]> fm)) key ↔ has_key py_str (JObj fm) key.
Proof.
  unfold has_key, feature_key, coordinate. simpl.
  by rewrite !lookup_insert_ne.
Qed.

Lemma is_point_set_properties fm p :
  is_point (JObj (<["properties" := p]> fm)) = is_point (JObj fm).
Proof. unfold is_point. simpl. by rewrite lookup_insert_ne. Qed.

End table_facts.

Section loop_facts.

Variable py_str : json → string.

(** *** The loop over the features *)

Lemma for_each_annotate wd fs t t' fs1 :
  for_each (annotate py_str wd) fs t = (t', Ok fs1) →
  length fs1 = length fs ∧
  ∀ j f, fs !! j = Some f →
    ∃ tj tj' f1,
      extends t tj ∧ annotate py_str wd f tj = (tj', Ok f1) ∧
      extends tj' t' ∧ fs1 !! j = Some f1.
Proof.
  revert t fs1. induction fs as [|f0 fs IH]; intros t fs1 H; simpl in H.
  - inv_ok. by split.
  - apply bind_ok in H as (t1 & f1 & Hf & H).
    apply bind_ok in H as (t2 & fs1' & Hfs & H).
    apply ret_ok in H as [-> ->].
    destruct (IH _ _ Hfs) as [Hlen Hall]. split; [simpl; by rewrite Hlen|].
    intros [|j] f Hj; simpl in Hj.
    + injection Hj as <-. exists t, t1, f1.
      split; [apply extends_refl|]. split; [done|]. split; [|done].
      eapply grows_for_each; [|done]. intros x. apply grows_annotate.
    + destruct (Hall j f Hj) as (tj & tj' & fj & E1 & Ha & E2 & Hl).
      exists tj, tj', fj. split; [|done].
      eapply extends_trans; [|done]. by eapply grows_annotate.
Qed.

Lemma annotate_same_but_properties wd f t t' f1 :
  annotate py_str wd f t = (t', Ok f1) → same_but_properties f f1.
Proof.
  intros H. destruct (annotate_waypoint_for _ _ _ _ _ _ H) as [[w|] Hw].
  - destruct (annotate_joined _ _ _ _ _ _ _ Hw H)
      as (fm & ? & ? & ? & ? & -> & _ & _ & _ & _ & _ & ->).
    right. eauto.
  - destruct (annotate_unjoined _ _ _ _ _ _ Hw H) as [_ ->]. by left.
Qed.

Lemma for_each_same_but_properties wd fs t t' fs1 :
  for_each (annotate py_str wd) fs t = (t', Ok fs1) →
  Forall2 same_but_properties fs fs1.
Proof.
  intros H. destruct (for_each_annotate _ _ _ _ _ H) as [Hlen Hall].
  apply Forall2_same_length_lookup_2; [done|].
  intros j f f1 Hf Hf1.
  destruct (Hall j f Hf) as (tj & tj' & f1' & _ & Ha & _ & Hl).
  assert (f1' = f1) as -> by congruence.
  by eapply annotate_same_but_properties.
Qed.

(** *** The waypoint dict: the last waypoint under a key wins *)

Lemma waypoints_dict_absent ws acc wd key :
  waypoints_dict py_str ws acc = Ok wd →
  Forall (λ w, waypoint_key py_str w ≠ Ok key) ws →
  wd !! key = acc !! key.
Proof.
  revert acc. induction ws as [|w ws IH]; intros acc H Hall; simpl in H.
  - by injection H as <-.
  - apply rbind_ok in H as (k & Hk & H).
    apply Forall_cons in Hall as [Hw Hall].
    rewrite (IH _ H Hall). apply lookup_insert_ne. congruence.
Qed.

Lemma waypoints_dict_last ws acc wd key pre w post :
  waypoints_dict py_str ws acc = Ok wd →
  ws = pre ++ w :: post →
  waypoint_key py_str w = Ok key →
  Forall (λ w', waypoint_key py_str w' ≠ Ok key) post →
  wd !! key = Some w.
Proof.
  revert acc ws. induction pre as [|w0 pre IH]; intros acc ws H -> Hw Hpost;
    simpl in H; apply rbind_ok in H as (k & Hk & H).
  - assert (k = key) as -> by congruence.
    rewrite (waypoints_dict_absent _ _ _ _ H Hpost). apply lookup_insert_eq.
  - by eapply IH.
Qed.

Lemma waypoints_dict_found ws acc wd key w :
  waypoints_dict py_str ws acc = Ok wd →
  wd !! key = Some w →
  (∃ pre post, ws = pre ++ w :: post ∧ waypoint_key py_str w = Ok key ∧
     Forall (λ w', waypoint_key py_str w' ≠ Ok key) post) ∨
  (Forall (λ w', waypoint_key py_str w' ≠ Ok key) ws ∧ acc !! key = Some w).
Proof.
  revert acc. induction ws as [|w0 ws IH]; intros acc H Hw; simpl in H.
  - injection H as <-. right. by split.
  - apply rbind_ok in H as (k & Hk & H).
    destruct (IH _ H Hw) as [(pre & post & -> & Hkey & Hpost)|[Hall Hacc]].
    + left. by exists (w0 :: pre), post.
    + destruct (decide (k = key)) as [->|Hne].
      * rewrite lookup_insert_eq in Hacc. injection Hacc as ->.
        left. by exists [], ws.
      * rewrite lookup_insert_ne in Hacc by done.
        right. split; [|done]. apply Forall_cons. split; [congruence|done].
Qed.

(** *** The filter of line 65 *)

Lemma point_features_testable fs k l :
  point_features fs k = Ok l → Forall testable fs.
Proof.
  revert k l. induction fs as [|f fs IH]; intros k l H; [done|].
  simpl in H. apply rbind_ok in H as (b & Hb & H).
  apply rbind_ok in H as (rest & Hrest & H).
  apply Forall_cons. split; [by exists b | by eapply IH].
Qed.

Lemma point_features_nil fs k :
  point_features fs k = Ok [] → Forall (λ f, is_point f = Ok false) fs.
Proof.
  revert k. induction fs as [|f fs IH]; intros k H; [done|].
  simpl in H. apply rbind_ok in H as (b & Hb & H).
  apply rbind_ok in H as (rest & Hrest & H).
  destruct b; [done|]. injection H as ->.
  apply Forall_cons. split; [done | by eapply IH].
Qed.

Lemma point_features_head fs k i f rest :
  point_features fs k = Ok ((i, f) :: rest) →
  ∃ j, i = k + j ∧ fs !! j = Some f ∧ is_point f = Ok true ∧
       ∀ j' f', j' < j → fs !! j' = Some f' → is_point f' = Ok false.
Proof.
  revert k. induction fs as [|f0 fs IH]; intros k H; [done|].
  simpl in H. apply rbind_ok in H as (b & Hb & H).
  apply rbind_ok in H as (rest' & Hrest & H).
  destruct b.
  - injection H as <- <- <-. exists 0. split_and!; [lia|done|done|].
    intros j' f' Hlt. lia.
  - injection H as ->. destruct (IH _ Hrest) as (j & -> & Hj & Hp & Hfirst).
    exists (S j). split_and!; [lia|done|done|].
    intros [|j'] f' Hlt Hf'; simpl in Hf'.
    + by injection Hf' as <-.
    + eapply Hfirst; [|done]. lia.
Qed.

Lemma point_features_first fs k j f :
  Forall testable fs →
  fs !! j = Some f → is_point f = Ok true →
  (∀ j' f', j' < j → fs !! j' = Some f' → is_point f' ≠ Ok true) →
  ∃ rest, point_features fs k = Ok ((k + j, f) :: rest).
Proof.
  revert k j. induction fs as [|f0 fs IH]; intros k j Hall Hj Hp Hfirst; [done|].
  apply Forall_cons in Hall as [[b Hb] Hall]. simpl. rewrite Hb. simpl.
  destruct j as [|j]; simpl in Hj.
  - injection Hj as ->. assert (b = true) as -> by congruence.
    assert (∃ l, point_features fs (S k) = Ok l) as [l Hl].
    { clear -Hall. revert k. induction Hall as [|f1 fs [b1 Hb1] _ IH]; intros k.
      - by exists [].
      - simpl. rewrite Hb1. simpl. destruct (IH (S k)) as [l Hl].
        rewrite Hl. simpl. eauto. }
    rewrite Hl. simpl. exists l. by rewrite Nat.add_0_r.
  - destruct (IH (S k) j Hall Hj Hp) as [rest Hrest].
    { intros j' f' Hlt Hf'. apply (Hfirst (S j') f'); [lia|done]. }
    rewrite Hrest. simpl. destruct b.
    + exfalso. by apply (Hfirst 0 f0); [lia|done|].
    + exists rest. f_equal. f_equal. f_equal. lia.
Qed.

Lemma first_point_head fs i f rest :
  point_features fs 0 = Ok ((i, f) :: rest) →
  first_point fs i ∧ fs !! i = Some f.
Proof.
  intros H. destruct (point_features_head _ _ _ _ _ H) as (j & -> & Hj & Hp & Hf).
  simpl. split; [|done]. split; [eauto|].
  intros j' f' Hlt Hf'. rewrite (Hf j' f' Hlt Hf'). done.
Qed.

Lemma first_point_unique fs i j : first_point fs i → first_point fs j → i = j.
Proof.
  intros [(f & Hf & Hp) Hi] [(f' & Hf' & Hp') Hj].
  destruct (Nat.lt_trichotomy i j) as [Hlt|[->|Hlt]]; [|done|].
  - by destruct (Hj i f Hlt Hf).
  - by destruct (Hi j f' Hlt Hf').
Qed.

Lemma is_point_same_but_properties f f' :
  same_but_properties f f' → is_point f' = is_point f.
Proof.
  intros [->|(fm & p & -> & ->)]; [done|]. apply is_point_set_properties.
Qed.

Lemma first_point_same_but_properties fs fs' i :
  Forall2 same_but_properties fs fs' → first_point fs i ↔ first_point fs' i.
Proof.
  intros H. unfold first_point. split.
  - intros [(f & Hf & Hp) Hfirst]. split.
    + destruct (Forall2_lookup_l _ _ _ _ _ H Hf) as (f' & Hf' & Hs).
      exists f'. split; [done|]. by rewrite (is_point_same_but_properties _ _ Hs).
    + intros j f' Hlt Hf'.
      destruct (Forall2_lookup_r _ _ _ _ _ H Hf') as (f0 & Hf0 & Hs).
      rewrite (is_point_same_but_properties _ _ Hs). by eapply Hfirst.
  - intros [(f' & Hf' & Hp) Hfirst]. split.
    + destruct (Forall2_lookup_r _ _ _ _ _ H Hf') as (f & Hf & Hs).
      exists f. split; [done|]. by rewrite <- (is_point_same_but_properties _ _ Hs).
    + intros j f Hlt Hf.
      destruct (Forall2_lookup_l _ _ _ _ _ H Hf) as (f0 & Hf0 & Hs).
      rewrite <- (is_point_same_but_properties _ _ Hs). by eapply Hfirst.
Qed.

Lemma testable_same_but_properties fs fs' :
  Forall2 same_but_properties fs fs' → Forall testable fs → Forall testable fs'.
Proof.
  induction 1 as [|f f' fs fs' Hs _ IH]; [done|].
  intros [Hf Hall]%Forall_cons. apply Forall_cons. split; [|by apply IH].
  unfold testable. by rewrite (is_point_same_but_properties _ _ Hs).
Qed.

End loop_facts.

Section shape_facts.

Variable py_str : json → string.

Lemma testable_is_dict f : testable f → is_dict f.
Proof. intros [b Hb]. destruct f; try discriminate. by eexists. Qed.

Lemma same_but_properties_is_dict f f' :
  same_but_properties f f' → is_dict f' → is_dict f.
Proof. intros [->|(fm & p & -> & _)] H; [done | by eexists]. Qed.

Lemma iter_shape v l :
  iter v = Ok l → v = JArr l ∨ Forall (λ f, ¬ is_dict f) l.
Proof.
  destruct v; simpl; try discriminate; intros [= <-]; [right|by left|right].
  - unfold chars. apply Forall_fmap, Forall_true. by intros c [fm ?].
  - apply Forall_fmap, Forall_true. by intros c [fm ?].
Qed.

Lemma waypoint_for_key wd f key :
  has_key py_str f key → waypoint_for py_str wd f = Ok (wd !! key).
Proof. intros [Hc Hk]. unfold waypoint_for. by rewrite Hc, Hk. Qed.

Lemma waypoint_for_some wd f w :
  waypoint_for py_str wd f = Ok (Some w) →
  ∃ key, has_key py_str f key ∧ wd !! key = Some w.
Proof.
  unfold waypoint_for, has_key.
  destruct (contains "geometry" f) as [[]|]; simpl; try discriminate.
  destruct (feature_key py_str f) as [key|]; simpl; try discriminate.
  intros [= H]. eauto.
Qed.

Lemma waypoint_for_unmatched ws wd f o :
  waypoints_dict py_str ws ∅ = Ok wd →
  waypoint_for py_str wd f = Ok o →
  unmatched py_str ws f → o = None.
Proof.
  intros Hwd Hw Hu. destruct o as [w|]; [|done].
  destruct (waypoint_for_some _ _ _ Hw) as (key & Hk & Hl).
  rewrite (waypoints_dict_absent _ _ _ _ _ Hwd (Hu key Hk)) in Hl. done.
Qed.

Lemma waypoint_for_joined ws wd f w :
  waypoints_dict py_str ws ∅ = Ok wd →
  joined py_str ws f w → waypoint_for py_str wd f = Ok (Some w).
Proof.
  intros Hwd (key & pre & post & Hk & Hws & Hw & Hpost).
  rewrite (waypoint_for_key _ _ _ Hk).
  by rewrite (waypoints_dict_last _ _ _ _ _ _ _ _ Hwd Hws Hw Hpost).
Qed.

Lemma waypoint_for_found ws wd f w :
  waypoints_dict py_str ws ∅ = Ok wd →
  waypoint_for py_str wd f = Ok (Some w) → joined py_str ws f w.
Proof.
  intros Hwd Hw. destruct (waypoint_for_some _ _ _ Hw) as (key & Hk & Hl).
  destruct (waypoints_dict_found _ _ _ _ _ _ Hwd Hl)
    as [(pre & post & ? & ? & ?)|[_ ?]]; [|done].
  by exists key, pre, post.
Qed.

(** *** The two halves of [update_geojson], taken apart and put together *)

Lemma join_pass_ok g wj t t' fs1 :
  join_pass py_str g wj t = (t', Ok fs1) →
  ∃ ws wd feats fs,
    iter wj = Ok ws ∧ waypoints_dict py_str ws ∅ = Ok wd ∧
    getitem g "features" = Ok feats ∧ iter feats = Ok fs ∧
    for_each (annotate py_str wd) fs t = (t', Ok fs1) ∧
    ∃ s, found_pictograms ws = Ok s.
Proof.
  unfold join_pass. intros H.
  apply bind_ok in H as (t1 & ws & H1 & H). apply lift_ok in H1 as [-> H1].
  apply bind_ok in H as (t1 & wd & H2 & H). apply lift_ok in H2 as [-> H2].
  apply bind_ok in H as (t1 & feats & H3 & H). apply lift_ok in H3 as [-> H3].
  apply bind_ok in H as (t1 & fs & H4 & H). apply lift_ok in H4 as [-> H4].
  apply bind_ok in H as (t1 & fs' & H5 & H).
  apply bind_ok in H as (t2 & s & H6 & H). apply lift_ok in H6 as [-> H6].
  apply ret_ok in H as [-> ->].
  exists ws, wd, feats, fs. eauto 10.
Qed.

Lemma join_pass_eq g wj t t' fs1 ws wd feats fs s :
  iter wj = Ok ws → waypoints_dict py_str ws ∅ = Ok wd →
  getitem g "features" = Ok feats → iter feats = Ok fs →
  for_each (annotate py_str wd) fs t = (t', Ok fs1) →
  found_pictograms ws = Ok s →
  join_pass py_str g wj t = (t', Ok fs1).
Proof.
  intros H1 H2 H3 H4 H5 H6. unfold join_pass, bind, lift, ret.
  by rewrite H1, H2, H3, H4, H5, H6.
Qed.

Lemma color_start_ok g fs1 out :
  color_start g fs1 = Ok out →
  ∃ m i fm p,
    g = JObj m ∧ first_point fs1 i ∧ Forall testable fs1 ∧
    fs1 !! i = Some (JObj fm) ∧ fm !! "properties" = Some (JObj p) ∧
    out = JObj (<["features" := JArr (<[i := start_colored fm p]> fs1)]> m).
Proof.
  unfold color_start. intros H.
  apply rbind_ok in H as (points & Hp & H).
  destruct points as [|[i f] rest]; [done|].
  apply rbind_ok in H as (props & H1 & H).
  apply rbind_ok in H as (props' & H2 & H).
  apply rbind_ok in H as (f' & H3 & H).
  destruct (first_point_head _ _ _ _ Hp) as [Hfirst Hi].
  destruct f as [| | | | | |fm]; try discriminate.
  simpl in H1. destruct (fm !! "properties") as [x|] eqn:Hx; [|done].
  injection H1 as ->.
  destruct props as [| | | | | |p]; try discriminate. injection H2 as <-.
  injection H3 as <-.
  destruct g as [| | | | | |m]; try discriminate. injection H as <-.
  exists m, i, fm, p. split_and!; try done.
  by eapply point_features_testable.
Qed.

Lemma color_start_eq m fs1 i fm p :
  first_point fs1 i → Forall testable fs1 →
  fs1 !! i = Some (JObj fm) → fm !! "properties" = Some (JObj p) →
  color_start (JObj m) fs1 =
    Ok (JObj (<["features" := JArr (<[i := start_colored fm p]> fs1)]> m)).
Proof.
  intros [(f & Hf & Hp) Hfirst] Hall Hi Hprops.
  assert (f = JObj fm) as -> by congruence.
  destruct (point_features_first _ 0 _ _ Hall Hi Hp Hfirst) as [rest Hrest].
  unfold color_start. rewrite Hrest. simpl. by rewrite Hprops.
Qed.

(** A run that returns: the shape of its input and of its output. *)
Lemma update_geojson_ok g wj t t' out :
  update_geojson py_str g wj t = (t', Ok out) →
  ∃ m ws wd fs fs1 i fm p,
    g = JObj m ∧ iter wj = Ok ws ∧ waypoints_dict py_str ws ∅ = Ok wd ∧
    m !! "features" = Some (JArr fs) ∧
    for_each (annotate py_str wd) fs t = (t', Ok fs1) ∧
    (∃ s, found_pictograms ws = Ok s) ∧
    first_point fs1 i ∧ Forall testable fs1 ∧
    fs1 !! i = Some (JObj fm) ∧ fm !! "properties" = Some (JObj p) ∧
    out = JObj (<["features" := JArr (<[i := start_colored fm p]> fs1)]> m).
Proof.
  unfold update_geojson. intros H.
  apply bind_ok in H as (t1 & fs1 & Hj & H). apply lift_ok in H as [-> H].
  destruct (join_pass_ok _ _ _ _ _ Hj) as (ws & wd & feats & fs & H1 & H2 & H3 & H4 & H5 & H6).
  destruct (color_start_ok _ _ _ H) as (m & i & fm & p & -> & Hfirst & Hall & Hi & Hp & ->).
  exists m, ws, wd, fs, fs1, i, fm, p. split_and!; try done.
  simpl in H3. destruct (m !! "features") as [x|]; [|done]. injection H3 as ->.
  destruct (iter_shape _ _ H4) as [->|Hnd]; [done|]. exfalso.
  pose proof (for_each_same_but_properties _ _ _ _ _ _ H5) as Hs.
  destruct (Forall2_lookup_r _ _ _ _ _ Hs Hi) as (f0 & Hf0 & Hs0).
  apply (Forall_lookup_1 _ _ _ _ Hnd Hf0).
  eapply same_but_properties_is_dict; [done|]. by eexists.
Qed.

End shape_facts.

Section join_facts.

Variable py_str : json → string.

Lemma same_but_properties_delete fm fm' :
  same_but_properties (JObj fm) (JObj fm') →
  delete "properties" fm' = delete "properties" fm.
Proof.
  intros [[= ->]|(fm0 & p & [= <-] & [= ->])]; [done|].
  apply delete_insert_eq.
Qed.

(** *** On which inputs the run returns *)

Lemma waypoints_dict_returns ws acc :
  Forall (usable_waypoint py_str) ws →
  ∃ wd, waypoints_dict py_str ws acc = Ok wd.
Proof.
  intros Hall. revert acc.
  induction Hall as [|w ws (key & _ & _ & Hk & _) _ IH]; intros acc; simpl.
  - by eexists.
  - rewrite Hk. simpl. apply IH.
Qed.

Lemma found_pictograms_returns ws :
  Forall (usable_waypoint py_str) ws → ∃ s, found_pictograms ws = Ok s.
Proof.
  intros Hall. unfold found_pictograms.
  assert (∃ ks, rmap (λ waypoint_info,
                        let? category := get waypoint_info "pictogramName" JNull in
                        hash_key category) ws = Ok ks) as [ks ->].
  { induction Hall as [|w ws (_ & category & k & _ & Hc & Hk) _ [ks IH]]; simpl.
    - by eexists.
    - rewrite Hc. simpl. rewrite Hk. simpl. rewrite IH. simpl. by eexists. }
  simpl. by eexists.
Qed.

Lemma joined_elem_of ws f w : joined py_str ws f w → w ∈ ws.
Proof.
  intros (key & pre & post & _ & -> & _).
  apply elem_of_app. right. apply list_elem_of_here.
Qed.

(** The loop body returns on a usable feature, in every table state. *)
Lemma annotate_returns ws wd f t :
  waypoints_dict py_str ws ∅ = Ok wd →
  Forall (usable_waypoint py_str) ws →
  usable_feature py_str f →
  (∀ w, joined py_str ws f w → described w) →
  ∃ t' f1, annotate py_str wd f t = (t', Ok f1).
Proof.
  intros Hwd Hws [Ht Hkey] Hdesc.
  destruct (testable_is_dict _ Ht) as [fm ->].
  rewrite annotate_unfold.
  destruct (waypoint_for py_str wd (JObj fm)) as [[w|]|e] eqn:Hw.
  - pose proof (waypoint_for_found _ _ _ _ _ Hwd Hw) as Hj.
    destruct (Hdesc w Hj) as (name & elevation & Hn & He).
    rewrite Forall_forall in Hws.
    destruct (Hws w (joined_elem_of _ _ _ Hj)) as (_ & category & k & _ & Hc & Hk).
    unfold bind, lift.
    rewrite (new_properties_eq _ _ _ _ _ _ t Hn He Hc Hk). simpl. by eexists _, _.
  - by eexists _, _.
  - exfalso. unfold waypoint_for in Hw. simpl in Hw.
    case_bool_decide as Hg; simpl in Hw; [|done].
    destruct Hkey as [key Hk]; [simpl; by rewrite bool_decide_eq_true_2|].
    by rewrite Hk in Hw.
Qed.

Lemma for_each_annotate_returns ws wd fs t :
  waypoints_dict py_str ws ∅ = Ok wd →
  Forall (usable_waypoint py_str) ws →
  Forall (usable_feature py_str) fs →
  (∀ f w, f ∈ fs → joined py_str ws f w → described w) →
  ∃ t' fs1, for_each (annotate py_str wd) fs t = (t', Ok fs1).
Proof.
  intros Hwd Hws Hfs. revert t.
  induction Hfs as [|f fs Hf _ IH]; intros t Hdesc; simpl.
  - by eexists _, _.
  - destruct (annotate_returns ws wd f t Hwd Hws Hf) as (t1 & f1 & H1).
    { intros w. apply Hdesc. apply list_elem_of_here. }
    destruct (IH t1) as (t2 & fs1 & H2).
    { intros f0 w Hin. apply Hdesc. by apply list_elem_of_further. }
    unfold bind, ret. rewrite H1, H2. by eexists _, _.
Qed.

(** C2. [update_geojson] neither adds nor removes features: the output
    holds as many features as the input, each at its position and with
    every key but ['properties'] as it was; a feature no waypoint matches
    keeps its properties, except that the first Point feature gets
    [marker-color = "#3cc954"] on top of them; and the first Point feature
    carries that colour whether a waypoint matched it or not.  The run
    does return, and gives the first Point feature that colour, on every
    collection of usable features and usable waypoints, the joined ones
    described, whose first Point feature is joined with a waypoint or has
    a properties mapping. *)
Theorem update_geojson_frame g ws t :
  (∀ t' out,
     update_geojson py_str g (JArr ws) t = (t', Ok out) →
     ∃ m fs fs',
       g = JObj m ∧ m !! "features" = Some (JArr fs) ∧
       out = JObj (<["features" := JArr fs']> m) ∧
       length fs' = length fs ∧
       ∀ j f, fs !! j = Some f →
         ∃ fm fm',
           f = JObj fm ∧ fs' !! j = Some (JObj fm') ∧
           delete "properties" fm' = delete "properties" fm ∧
           (unmatched py_str ws f → ¬ first_point fs j → fm' = fm) ∧
           (unmatched py_str ws f → first_point fs j →
              ∃ p, fm !! "properties" = Some (JObj p) ∧
                   fm' = <["properties" :=
                             JObj (<["marker-color" := JStr "#3cc954"]> p)]> fm) ∧
           (first_point fs j →
              ∃ p', fm' !! "properties" = Some (JObj p') ∧
                    p' !! "marker-color" = Some (JStr "#3cc954"))) ∧
  (∀ m fs i fm,
     g = JObj m → m !! "features" = Some (JArr fs) →
     Forall (usable_waypoint py_str) ws →
     Forall (usable_feature py_str) fs →
     (∀ f w, f ∈ fs → joined py_str ws f w → described w) →
     first_point fs i → fs !! i = Some (JObj fm) →
     ((∃ w, joined py_str ws (JObj fm) w) ∨
      ∃ p, fm !! "properties" = Some (JObj p)) →
     ∃ t' fs' fm' p',
       update_geojson py_str g (JArr ws) t
       = (t', Ok (JObj (<["features" := JArr fs']> m))) ∧
       length fs' = length fs ∧
       fs' !! i = Some (JObj fm') ∧
       fm' !! "properties" = Some (JObj p') ∧
       p' !! "marker-color" = Some (JStr "#3cc954")).
Proof.
  split.
  { intros t' out H.
    destruct (update_geojson_ok _ _ _ _ _ _ H)
      as (m & ws0 & wd & fs & fs1 & i & fmi & p & -> & Hws & Hwd & Hfeats
          & Hloop & _ & Hfirst & Htest & Hi & Hp & ->).
    injection Hws as <-.
    destruct (for_each_annotate _ _ _ _ _ _ Hloop) as [Hlen Hall].
    pose proof (for_each_same_but_properties _ _ _ _ _ _ Hloop) as Hsame.
    exists m, fs, (<[i := start_colored fmi p]> fs1).
    split_and!; try done. { by rewrite length_insert. }
    intros j f Hj.
    destruct (Hall j f Hj) as (tj & tj' & f1 & _ & Ha & _ & Hj1).
    destruct (testable_is_dict _ (Forall_lookup_1 _ _ _ _ Htest Hj1)) as [fm1 ->].
    pose proof (annotate_same_but_properties _ _ _ _ _ _ Ha) as Hs.
    destruct (same_but_properties_is_dict _ _ Hs) as [fm ->]; [by eexists|].
    destruct (annotate_waypoint_for _ _ _ _ _ _ Ha) as [o Ho].
    assert (Hfj : first_point fs j ↔ j = i).
    { rewrite (first_point_same_but_properties _ _ j Hsame). split.
      - intros Hf. by eapply first_point_unique.
      - by intros ->. }
    assert (Hun : unmatched py_str ws (JObj fm) → fm1 = fm).
    { intros Hu. rewrite (waypoint_for_unmatched _ _ _ _ _ Hwd Ho Hu) in Ho.
      destruct (annotate_unjoined _ _ _ _ _ _ Ho Ha) as [_ Heq]. congruence. }
    exists fm. destruct (decide (j = i)) as [->|Hne].
    - assert (fm1 = fmi) as -> by congruence.
      exists (<["properties" := JObj (<["marker-color" := JStr "#3cc954"]> p)]> fmi).
      split_and!; try done.
      + apply list_lookup_insert_eq. by eapply lookup_lt_Some.
      + rewrite delete_insert_eq. by apply same_but_properties_delete.
      + intros _ Hnf. destruct Hnf. by apply Hfj.
      + intros Hu _. rewrite <- (Hun Hu). eauto.
      + intros _. eexists. split; [apply lookup_insert_eq|apply lookup_insert_eq].
    - exists fm1. split_and!; try done.
      + by rewrite list_lookup_insert_ne.
      + by apply same_but_properties_delete.
      + intros Hu _. by apply Hun.
      + intros _ Hf. by apply Hfj in Hf.
      + intros Hf. by apply Hfj in Hf. }
  { intros m fs i fm -> Hfeats Hws Hfs Hdesc Hfirst Hi Hstart.
    destruct (waypoints_dict_returns ws ∅ Hws) as [wd Hwd].
    destruct (found_pictograms_returns ws Hws) as [s Hs].
    destruct (for_each_annotate_returns ws wd fs t Hwd Hws Hfs Hdesc)
      as (t' & fs1 & Hloop).
    destruct (for_each_annotate _ _ _ _ _ _ Hloop) as [Hlen Hall].
    pose proof (for_each_same_but_properties _ _ _ _ _ _ Hloop) as Hsame.
    assert (Htest : Forall testable fs1).
    { apply (testable_same_but_properties _ _ Hsame).
      eapply Forall_impl; [exact Hfs|]. by intros f [Hf _]. }
    destruct (Hall i _ Hi) as (ti & ti' & f1 & _ & Ha & _ & Hi1).
    assert (∃ fmi p, f1 = JObj fmi ∧ fmi !! "properties" = Some (JObj p))
      as (fmi & p & -> & Hp).
    { destruct (annotate_waypoint_for _ _ _ _ _ _ Ha) as [[w|] Hw].
      - destruct (annotate_joined _ _ _ _ _ _ _ Hw Ha)
          as (fm0 & name & elevation & category & k & [= <-] & _ & _ & _ & _ & _ & ->).
        eexists _, _. split; [done|]. apply lookup_insert_eq.
      - destruct (annotate_unjoined _ _ _ _ _ _ Hw Ha) as [_ ->].
        destruct Hstart as [[w Hj]|[p Hp]].
        + by rewrite (waypoint_for_joined _ _ _ _ _ Hwd Hj) in Hw.
        + by exists fm, p. }
    assert (Hrun : update_geojson py_str (JObj m) (JArr ws) t
                   = (t', Ok (JObj (<["features" :=
                                       JArr (<[i := start_colored fmi p]> fs1)]> m)))).
    { unfold update_geojson, bind, lift.
      rewrite (join_pass_eq py_str (JObj m) (JArr ws) t t' fs1 ws wd (JArr fs) fs s);
        [|done|done|by simpl; rewrite Hfeats|done|done|done].
      rewrite (color_start_eq m fs1 i fmi p); [done| |done..].
      by apply (first_point_same_but_properties _ _ _ Hsame). }
    exists t', (<[i := start_colored fmi p]> fs1),
      (<["properties" := JObj (<["marker-color" := JStr "#3cc954"]> p)]> fmi),
      (<["marker-color" := JStr "#3cc954"]> p).
    split_and!; [done| | | |].
    + by rewrite length_insert.
    + apply list_lookup_insert_eq. by eapply lookup_lt_Some.
    + apply lookup_insert_eq.
    + apply lookup_insert_eq. }
Qed.

(** C1, as the code has it.  A feature joined with a waypoint gets, as
    its whole properties mapping, the waypoint's name as title, the
    elevation text as description and the icon of the waypoint's category
    as marker-symbol, whatever properties it had; the waypoint is the last
    of the list under the feature's join key; and the first Point feature
    has [marker-color] besides. *)
Theorem update_geojson_joined ks g ws t' out fs j f w :
  update_geojson py_str g (JArr ws) (lookups ks MARKER_DICT) = (t', Ok out) →
  getitem g "features" = Ok (JArr fs) →
  fs !! j = Some f →
  joined py_str ws f w →
  ∃ name elevation category k fs' fm',
    getitem w "name" = Ok name ∧ getitem w "elevation" = Ok elevation ∧
    get w "pictogramName" JNull = Ok category ∧ hash_key category = Ok k ∧
    getitem out "features" = Ok (JArr fs') ∧ fs' !! j = Some (JObj fm') ∧
    (¬ first_point fs j →
       fm' !! "properties"
       = Some (JObj (properties_of py_str name elevation (icon_of MARKER_DICT k)))) ∧
    (first_point fs j →
       fm' !! "properties"
       = Some (JObj (<["marker-color" := JStr "#3cc954"]>
                       (properties_of py_str name elevation (icon_of MARKER_DICT k))))).
Proof.
  intros H Hg Hj Hjoin.
  destruct (update_geojson_ok _ _ _ _ _ _ H)
    as (m & ws0 & wd & fs0 & fs1 & i & fmi & p & -> & Hws & Hwd & Hfeats
        & Hloop & _ & Hfirst & Htest & Hi & Hp & ->).
  injection Hws as <-. simpl in Hg. rewrite Hfeats in Hg. injection Hg as ->.
  destruct (for_each_annotate _ _ _ _ _ _ Hloop) as [Hlen Hall].
  pose proof (for_each_same_but_properties _ _ _ _ _ _ Hloop) as Hsame.
  destruct (Hall j f Hj) as (tj & tj' & f1 & Hext & Ha & _ & Hj1).
  pose proof (waypoint_for_joined _ _ _ _ _ Hwd Hjoin) as Hw.
  destruct (annotate_joined _ _ _ _ _ _ _ Hw Ha)
    as (fm & name & elevation & category & k & -> & Hn & He & Hc & Hk & _ & ->).
  assert (Hicon : icon_of tj k = icon_of MARKER_DICT k).
  { destruct Hext as [_ ->]. apply lookups_extends. }
  rewrite Hicon in Hj1.
  assert (Hfj : first_point fs j ↔ j = i).
  { rewrite (first_point_same_but_properties _ _ j Hsame). split.
    - intros Hf. by eapply first_point_unique.
    - by intros ->. }
  exists name, elevation, category, k, (<[i := start_colored fmi p]> fs1).
  destruct (decide (j = i)) as [->|Hne].
  - rewrite Hi in Hj1. injection Hj1 as ->.
    rewrite lookup_insert_eq in Hp. injection Hp as <-.
    eexists. split_and!; try done.
    + simpl. by rewrite lookup_insert_eq.
    + apply list_lookup_insert_eq. by eapply lookup_lt_Some.
    + intros Hnf. destruct Hnf. by apply Hfj.
    + intros _. apply lookup_insert_eq.
  - eexists. split_and!; try done.
    + simpl. by rewrite lookup_insert_eq.
    + by rewrite list_lookup_insert_ne.
    + intros _. apply lookup_insert_eq.
    + intros Hf. by apply Hfj in Hf.
Qed.

End join_facts.

Section rerun_facts.

Variable py_str : json → string.

(** C9, as the code has it.  A run of [update_geojson], whether it
    returns or raises, leaves every entry of the table in place and every
    lookup's answer as it was; what it may add are entries whose icon is
    the default ["location-pin"], one for each category it looked up that
    the table did not hold. *)
Theorem update_geojson_table g wj t :
  let t' := (update_geojson py_str g wj t).1 in
  t ⊆ t' ∧
  (∀ k, icon_of t' k = icon_of t k) ∧
  (∀ k, t !! k = None → t' !! k = None ∨ t' !! k = Some "location-pin").
Proof.
  intros t'.
  assert (Hext : extends t t').
  { apply (grows_update_geojson py_str g wj t t' (update_geojson py_str g wj t).2).
    unfold t'. by destruct (update_geojson py_str g wj t). }
  destruct Hext as [Hsub Hicon]. split_and!; try done.
  intros k Hk. specialize (Hicon k). unfold icon_of in Hicon.
  rewrite Hk in Hicon. simpl in Hicon.
  destruct (t' !! k) as [v|]; [right|by left]. simpl in Hicon. by subst.
Qed.

(** *** Running the merge on its own output *)

Lemma annotate_again wd f t t' f1 t1 f2 :
  annotate py_str wd f t = (t', Ok f1) →
  t' ⊆ t1 →
  same_but_properties f1 f2 →
  annotate py_str wd f2 t1 =
    (t1, Ok (match waypoint_for py_str wd f with
             | Ok (Some _) => f1
             | _ => f2
             end)).
Proof.
  intros Ha Hsub Hs.
  destruct (annotate_waypoint_for _ _ _ _ _ _ Ha) as [[w|] Hw]; rewrite Hw.
  - destruct (annotate_joined _ _ _ _ _ _ _ Hw Ha)
      as (fm & name & elevation & category & k & -> & Hn & He & Hc & Hk & -> & ->).
    assert (Hw2 : waypoint_for py_str wd f2 = Ok (Some w)).
    { destruct Hs as [->|(fm0 & p & [= <-] & ->)];
        by rewrite !waypoint_for_set_properties. }
    assert (∃ fm2, f2 = JObj fm2 ∧
              <["properties" := JObj (properties_of py_str name elevation (icon_of t k))]> fm2
              = <["properties" := JObj (properties_of py_str name elevation (icon_of t k))]> fm)
      as (fm2 & -> & Hfm2).
    { destruct Hs as [->|(fm0 & p & [= <-] & ->)]; eexists; (split; [done|]).
      - by rewrite insert_insert_eq.
      - by rewrite !insert_insert_eq. }
    rewrite annotate_unfold, Hw2.
    unfold bind. rewrite (new_properties_eq _ _ _ _ _ _ _ Hn He Hc Hk).
    assert (Hl : t1 !! k = Some (icon_of t k)).
    { eapply lookup_weaken; [|done]. apply lookup_insert_eq. }
    assert (Hi : icon_of t1 k = icon_of t k) by (unfold icon_of at 1; by rewrite Hl).
    rewrite Hi, (insert_id t1) by done.
    unfold lift. simpl. by rewrite Hfm2.
  - destruct (annotate_unjoined _ _ _ _ _ _ Hw Ha) as [-> ->].
    assert (Hw2 : waypoint_for py_str wd f2 = Ok None).
    { destruct Hs as [->|(fm0 & p & -> & ->)]; [done|].
      by rewrite waypoint_for_set_properties. }
    by rewrite annotate_unfold, Hw2.
Qed.

Lemma same_but_properties_refl f : same_but_properties f f.
Proof. by left. Qed.

Lemma for_each_again wd fs t t' fs1 t1 :
  for_each (annotate py_str wd) fs t = (t', Ok fs1) →
  t' ⊆ t1 →
  for_each (annotate py_str wd) fs1 t1 = (t1, Ok fs1).
Proof.
  revert t fs1. induction fs as [|f fs IH]; intros t fs1 H Hsub; simpl in H.
  - by apply ret_ok in H as [-> ->].
  - apply bind_ok in H as (ta & fa & Ha & H).
    apply bind_ok in H as (tb & fs1' & Hfs & H). apply ret_ok in H as [-> ->].
    assert (Hab : ta ⊆ tb).
    { eapply (grows_for_each (annotate py_str wd)); [|done].
      intros x. apply grows_annotate. }
    simpl. unfold bind at 1.
    rewrite (annotate_again _ _ _ _ _ t1 fa Ha); [|by etrans|apply same_but_properties_refl].
    unfold bind. rewrite (IH _ _ Hfs Hsub). unfold ret.
    by destruct (waypoint_for py_str wd f) as [[?|]|].
Qed.

Lemma for_each_again_at wd fs t t' fs1 t1 i f f1 f2 :
  for_each (annotate py_str wd) fs t = (t', Ok fs1) →
  t' ⊆ t1 →
  fs !! i = Some f → fs1 !! i = Some f1 →
  same_but_properties f1 f2 →
  for_each (annotate py_str wd) (<[i := f2]> fs1) t1 =
    (t1, Ok (<[i := match waypoint_for py_str wd f with
                     | Ok (Some _) => f1
                     | _ => f2
                     end]> fs1)).
Proof.
  revert t fs1 i.
  induction fs as [|f0 fs IH]; intros t fs1 i H Hsub Hi Hi1 Hs; [done|].
  simpl in H.
  apply bind_ok in H as (ta & fa & Ha & H).
  apply bind_ok in H as (tb & fs1' & Hfs & H). apply ret_ok in H as [-> ->].
  assert (Hab : ta ⊆ tb).
  { eapply (grows_for_each (annotate py_str wd)); [|done].
    intros x. apply grows_annotate. }
  destruct i as [|i]; simpl in Hi, Hi1.
  - injection Hi as ->. injection Hi1 as ->. simpl. unfold bind at 1.
    rewrite (annotate_again _ _ _ _ _ t1 f2 Ha); [|by etrans|done].
    unfold bind. by rewrite (for_each_again _ _ _ _ _ _ Hfs Hsub).
  - simpl. unfold bind at 1.
    rewrite (annotate_again _ _ _ _ _ t1 fa Ha); [|by etrans|apply same_but_properties_refl].
    unfold bind. rewrite (IH _ _ _ Hfs Hsub Hi Hi1 Hs). unfold ret.
    by destruct (waypoint_for py_str wd f0) as [[?|]|].
Qed.

Lemma same_but_properties_insert fs1 i f1 f2 :
  fs1 !! i = Some f1 → same_but_properties f1 f2 →
  Forall2 same_but_properties fs1 (<[i := f2]> fs1).
Proof.
  intros Hi Hs. rewrite <- (list_insert_id fs1 i f1) at 1 by done.
  apply Forall2_insert; [|done].
  apply Forall_Forall2_diag, Forall_true. apply same_but_properties_refl.
Qed.

(** C4. [update_geojson] is idempotent: when it returns on a collection
    and a waypoint list, running it again on what it returned, with the
    same waypoints and the table as the first run left it, returns the
    same collection once more (and leaves the table as it is). *)
Theorem update_geojson_idempotent g wj t t1 out :
  update_geojson py_str g wj t = (t1, Ok out) →
  update_geojson py_str out wj t1 = (t1, Ok out).
Proof.
  intros H.
  destruct (update_geojson_ok _ _ _ _ _ _ H)
    as (m & ws & wd & fs & fs1 & i & fmi & p & -> & Hws & Hwd & Hfeats
        & Hloop & [s Hs] & Hfirst & Htest & Hi & Hp & ->).
  pose proof (for_each_same_but_properties _ _ _ _ _ _ Hloop) as Hsame.
  destruct (Forall2_lookup_r _ _ _ _ _ Hsame Hi) as (f & Hf & Hsf).
  assert (Hsc : same_but_properties (JObj fmi) (start_colored fmi p)).
  { right. by eexists _, _. }
  pose proof (for_each_again_at _ _ _ _ _ t1 _ _ _ _ Hloop (reflexivity _) Hf Hi Hsc)
    as Hloop2.
  set (x := match waypoint_for py_str wd f with
            | Ok (Some _) => JObj fmi
            | _ => start_colored fmi p
            end) in Hloop2.
  assert (∃ fmx px, x = JObj fmx ∧ fmx !! "properties" = Some (JObj px) ∧
                         start_colored fmx px = start_colored fmi p ∧
                         same_but_properties (JObj fmi) x)
    as (fmx & px & Hxeq & Hpx & Hcol & Hsx).
  { unfold x. destruct (waypoint_for py_str wd f) as [[w|]|].
    - exists fmi, p. split_and!; try done. apply same_but_properties_refl.
    - eexists _, _. split_and!; [done|apply lookup_insert_eq| |done].
      unfold start_colored. by rewrite !insert_insert_eq.
    - eexists _, _. split_and!; [done|apply lookup_insert_eq| |done].
      unfold start_colored. by rewrite !insert_insert_eq. }
  pose proof (same_but_properties_insert _ _ _ _ Hi Hsx) as Hsame2.
  unfold update_geojson, bind.
  rewrite (join_pass_eq py_str _ wj t1 t1 (<[i := x]> fs1) ws wd
             (JArr (<[i := start_colored fmi p]> fs1))
             (<[i := start_colored fmi p]> fs1) s); try done.
  - unfold lift. f_equal.
    rewrite (color_start_eq _ _ i fmx px).
    + rewrite Hcol, insert_insert_eq, list_insert_insert_eq. done.
    + by apply (first_point_same_but_properties _ _ i Hsame2).
    + by eapply testable_same_but_properties.
    + rewrite <- Hxeq. apply list_lookup_insert_eq. by eapply lookup_lt_Some.
    + done.
  - simpl. by rewrite lookup_insert_eq.
Qed.

End rerun_facts.

Section start_facts.

Variable py_str : json → string.

Lemma point_features_total fs k :
  Forall testable fs → ∃ l, point_features fs k = Ok l.
Proof.
  intros Hall. revert k. induction Hall as [|f fs [b Hb] _ IH]; intros k.
  - by exists [].
  - simpl. rewrite Hb. simpl. destruct (IH (S k)) as [l Hl].
    rewrite Hl. simpl. eauto.
Qed.

(** A dict the loop body gets through can be tested by the filter of
    line 65: its geometry, if it has one, was subscripted by a string. *)
Lemma annotate_dict_testable wd fm t t' f1 :
  annotate py_str wd (JObj fm) t = (t', Ok f1) → testable (JObj fm).
Proof.
  intros H. destruct (annotate_waypoint_for _ _ _ _ _ _ H) as [o Ho].
  unfold waypoint_for in Ho. simpl in Ho. unfold testable, is_point. simpl.
  case_bool_decide as Hg; simpl in Ho.
  - apply rbind_ok in Ho as (key & Hk & _).
    unfold feature_key in Hk. apply rbind_ok in Hk as (c0 & Hc0 & _).
    unfold coordinate in Hc0. apply rbind_ok in Hc0 as (geo & Hgeo & Hc0).
    apply rbind_ok in Hc0 as (cs & Hcs & _).
    simpl in Hgeo. destruct (fm !! "geometry") as [x|]; [|done].
    injection Hgeo as ->. simpl.
    destruct geo; try discriminate. simpl. eauto.
  - destruct (fm !! "geometry") as [x|] eqn:E.
    + destruct Hg. by eexists.
    + simpl. rewrite lookup_empty. simpl. eauto.
Qed.

Lemma join_pass_testable g wj t t' fs fs1 :
  join_pass py_str g wj t = (t', Ok fs1) →
  getitem g "features" = Ok (JArr fs) →
  Forall is_dict fs →
  Forall2 same_but_properties fs fs1 ∧ Forall testable fs ∧ Forall testable fs1.
Proof.
  intros H Hg Hd.
  destruct (join_pass_ok _ _ _ _ _ _ H)
    as (ws & wd & feats & fs0 & _ & _ & Hfeats & Hiter & Hloop & _).
  rewrite Hg in Hfeats. injection Hfeats as <-. injection Hiter as <-.
  pose proof (for_each_same_but_properties _ _ _ _ _ _ Hloop) as Hs.
  destruct (for_each_annotate _ _ _ _ _ _ Hloop) as [_ Hall].
  assert (Ht : Forall testable fs).
  { apply Forall_lookup_2. intros j f Hj.
    destruct (Forall_lookup_1 _ _ _ _ Hd Hj) as [fm ->].
    destruct (Hall j _ Hj) as (tj & tj' & f1 & _ & Ha & _).
    by eapply annotate_dict_testable. }
  split_and!; [done|done|]. by eapply testable_same_but_properties.
Qed.

Lemma update_geojson_after_join g wj t t' fs1 :
  join_pass py_str g wj t = (t', Ok fs1) →
  update_geojson py_str g wj t = (t', color_start g fs1).
Proof. intros H. unfold update_geojson, bind. by rewrite H. Qed.

Lemma update_geojson_raises g wj t :
  (∀ t' out, update_geojson py_str g wj t ≠ (t', Ok out)) →
  ∃ e, (update_geojson py_str g wj t).2 = Raise e.
Proof.
  intros H. destruct (update_geojson py_str g wj t) as [t' [out|e]] eqn:E.
  - by destruct (H t' out).
  - by exists e.
Qed.

(** C10. [update_geojson] returns only when the collection holds a Point
    feature and the first one either is joined with a waypoint or has a
    properties mapping already.  With no Point feature it raises, and what
    it raises is [IndexError] whenever the lines before line 65 raise
    nothing and the features are dicts; with a first Point feature that
    no waypoint matches and that has no ['properties'] key it raises, and
    under the same proviso what it raises is [KeyError('properties')]. *)
Theorem update_geojson_needs_start g wj t :
  (∀ t' out,
     update_geojson py_str g wj t = (t', Ok out) →
     ∃ ws (fs : list json) (i : nat) f,
       iter wj = Ok ws ∧ getitem g "features" = Ok (JArr fs) ∧
       first_point fs i ∧ fs !! i = Some f ∧
       ((∃ w, joined py_str ws f w) ∨
        (∃ p, getitem f "properties" = Ok (JObj p)))) ∧
  (∀ fs,
     getitem g "features" = Ok (JArr fs) →
     Forall (λ f, is_point f ≠ Ok true) fs →
     (∃ e, (update_geojson py_str g wj t).2 = Raise e) ∧
     (Forall is_dict fs →
      ∀ t' fs1, join_pass py_str g wj t = (t', Ok fs1) →
                update_geojson py_str g wj t = (t', Raise IndexError))) ∧
  (∀ ws fs i f,
     iter wj = Ok ws → getitem g "features" = Ok (JArr fs) →
     first_point fs i → fs !! i = Some f →
     unmatched py_str ws f →
     getitem f "properties" = Raise (KeyError (JStr "properties")) →
     (∃ e, (update_geojson py_str g wj t).2 = Raise e) ∧
     (Forall is_dict fs →
      ∀ t' fs1, join_pass py_str g wj t = (t', Ok fs1) →
                update_geojson py_str g wj t
                = (t', Raise (KeyError (JStr "properties"))))).
Proof.
  assert (Hret : ∀ t' out,
     update_geojson py_str g wj t = (t', Ok out) →
     ∃ ws wd (fs fs1 : list json) (i : nat) f (fmi p : gmap string json),
       iter wj = Ok ws ∧ waypoints_dict py_str ws ∅ = Ok wd ∧
       getitem g "features" = Ok (JArr fs) ∧
       first_point fs i ∧ fs !! i = Some f ∧ fs1 !! i = Some (JObj fmi) ∧
       fmi !! "properties" = Some (JObj p) ∧
       ((∃ w, waypoint_for py_str wd f = Ok (Some w)) ∨ f = JObj fmi)).
  { intros t' out H.
    destruct (update_geojson_ok _ _ _ _ _ _ H)
      as (m & ws & wd & fs & fs1 & i & fmi & p & -> & Hws & Hwd & Hfeats
          & Hloop & _ & Hfirst & Htest & Hi & Hp & ->).
    pose proof (for_each_same_but_properties _ _ _ _ _ _ Hloop) as Hsame.
    destruct (for_each_annotate _ _ _ _ _ _ Hloop) as [_ Hall].
    destruct (Forall2_lookup_r _ _ _ _ _ Hsame Hi) as (f & Hf & _).
    destruct (Hall i f Hf) as (tj & tj' & f1 & _ & Ha & _ & Hi1).
    assert (f1 = JObj fmi) as -> by congruence.
    exists ws, wd, fs, fs1, i, f, fmi, p. split_and!; try done.
    - simpl. by rewrite Hfeats.
    - by apply (first_point_same_but_properties _ _ i Hsame).
    - destruct (annotate_waypoint_for _ _ _ _ _ _ Ha) as [[w|] Hw]; [eauto|].
      right. by destruct (annotate_unjoined _ _ _ _ _ _ Hw Ha) as [_ ->]. }
  split_and!.
  - intros t' out H.
    destruct (Hret t' out H)
      as (ws & wd & fs & fs1 & i & f & fmi & p & Hws & Hwd & Hg & Hfirst & Hf
          & Hi & Hp & Hcase).
    exists ws, fs, i, f. split_and!; try done.
    destruct Hcase as [[w Hw]| ->].
    + left. exists w. by eapply waypoint_for_found.
    + right. exists p. simpl. by rewrite Hp.
  - intros fs Hg Hnone. split.
    + apply update_geojson_raises. intros t' out H.
      destruct (Hret t' out H)
        as (ws & wd & fs' & fs1 & i & f & fmi & p & _ & _ & Hg' & Hfirst & Hf & _).
      rewrite Hg in Hg'. injection Hg' as <-.
      destruct Hfirst as [(f' & Hf' & Hp) _].
      by apply (Forall_lookup_1 _ _ _ _ Hnone Hf').
    + intros Hd t' fs1 Hj. rewrite (update_geojson_after_join _ _ _ _ _ Hj).
      f_equal. destruct (join_pass_testable _ _ _ _ _ _ Hj Hg Hd) as (Hs & _ & Ht1).
      unfold color_start.
      destruct (point_features_total fs1 0 Ht1) as [[|[i f1] rest] Hl];
        rewrite Hl; simpl; [done|]. exfalso.
      destruct (first_point_head _ _ _ _ Hl) as [Hfirst _].
      apply (first_point_same_but_properties _ _ i Hs) in Hfirst
        as [(f & Hf & Hp) _].
      by apply (Forall_lookup_1 _ _ _ _ Hnone Hf).
  - intros ws fs i f Hws Hg Hfirst Hf Hun Hnp. split.
    + apply update_geojson_raises. intros t' out H.
      destruct (Hret t' out H)
        as (ws' & wd & fs' & fs1 & i' & f' & fmi & p & Hws' & Hwd & Hg' & Hfirst'
            & Hf' & _ & Hp & Hcase).
      rewrite Hg in Hg'. injection Hg' as <-.
      rewrite Hws in Hws'. injection Hws' as <-.
      assert (i' = i) as -> by by eapply first_point_unique.
      assert (f' = f) as -> by congruence.
      destruct Hcase as [[w Hw]| ->].
      * by pose proof (waypoint_for_unmatched _ _ _ _ _ Hwd Hw Hun).
      * simpl in Hnp. by rewrite Hp in Hnp.
    + intros Hd t' fs1 Hj. rewrite (update_geojson_after_join _ _ _ _ _ Hj).
      f_equal. destruct (join_pass_testable _ _ _ _ _ _ Hj Hg Hd) as (Hs & _ & Ht1).
      destruct (join_pass_ok _ _ _ _ _ _ Hj)
        as (ws' & wd & feats & fs0 & Hws' & Hwd & Hfeats & Hiter & Hloop & _).
      rewrite Hws in Hws'. injection Hws' as <-.
      rewrite Hg in Hfeats. injection Hfeats as <-. injection Hiter as <-.
      destruct (for_each_annotate _ _ _ _ _ _ Hloop) as [_ Hall].
      destruct (Hall i f Hf) as (tj & tj' & f1 & _ & Ha & _ & Hi1).
      destruct (annotate_waypoint_for _ _ _ _ _ _ Ha) as [o Ho].
      rewrite (waypoint_for_unmatched _ _ _ _ _ Hwd Ho Hun) in Ho.
      destruct (annotate_unjoined _ _ _ _ _ _ Ho Ha) as [_ ->].
      apply (first_point_same_but_properties _ _ i Hs) in Hfirst.
      destruct Hfirst as [(f' & Hf' & Hp) Hbefore].
      assert (f' = f) as -> by congruence.
      destruct (point_features_first _ 0 _ _ Ht1 Hi1 Hp Hbefore) as [rest Hrest].
      unfold color_start. rewrite Hrest. simpl. by rewrite Hnp.
Qed.

End start_facts.

(** ** The response check *)

Lemma error_class_three_digits (s : Z) :
  (100 ≤ s ≤ 999)%Z →
  error_class s = Some (bool_decide (400 ≤ s ≤ 599)%Z).
Proof.
  intros Hs.
  assert (Hall : forallb (λ n, bool_decide (error_class (Z.of_nat n)
                     = Some (bool_decide (400 ≤ Z.of_nat n ≤ 599)%Z)))
                   (seq 100 900) = true) by (vm_compute; reflexivity).
  rewrite forallb_forall in Hall.
  specialize (Hall (Z.to_nat s)). rewrite Z2Nat.id in Hall by lia.
  eapply bool_decide_eq_true_1, Hall, in_seq. lia.
Qed.

Lemma skip_or_fail_class r skip fail b :
  error_class (status r) = Some b →
  skip_or_fail r skip fail =
    if skip && fail then
      ([], Raise (ClickException "--skip and --fail cannot be used together"))
    else if b then
      if skip then
        ([EchoErr (pretty (status r) +:+ " error for " +:+ url r +:+ ", skipping")],
         Raise SystemExit)
      else if fail then
        ([], Raise (ClickException (pretty (status r) +:+ " error for " +:+ url r)))
      else ([], Ok ())
    else ([], Ok ()).
Proof.
  unfold error_class, skip_or_fail.
  destruct (skip && fail); [done|].
  destruct (first_char (pretty (status r))) as [c|]; [|done].
  intros [= <-]. simpl.
  destruct (bool_decide (c = "4") || bool_decide (c = "5")); [|done].
  by destruct skip, fail.
Qed.

(** C6, as the code has it.  For a navigation response with a status from
    400 to 599, the check called with [skip=True] and [fail=False] writes
    the skip notice, with the status and the URL, to the error stream and
    raises [SystemExit]: the process ends there, silently for the command
    wrapper and with status 0.  Called with [skip=True] and [fail=True],
    which is what [fail] is by default, the check refuses the two modes
    together before it looks at the status. *)
Theorem skip_exits_with_success (r : response) :
  (400 ≤ status r ≤ 599)%Z →
  skip_or_fail r true false
  = ([EchoErr (pretty (status r) +:+ " error for " +:+ url r +:+ ", skipping")],
     Raise SystemExit) ∧
  exit_status (skip_or_fail r true false).2 = 0%Z ∧
  report_of (skip_or_fail r true false).2 = Silent ∧
  skip_or_fail r true true
  = ([], Raise (ClickException "--skip and --fail cannot be used together")).
Proof.
  intros Hs.
  rewrite (skip_or_fail_class r true false true).
  - done.
  - rewrite error_class_three_digits by lia. f_equal.
    by apply bool_decide_eq_true.
Qed.

(** C7. In the default mode ([skip=False], [fail=True]) the check fails a
    navigation response whose status is from 400 to 599 with a
    [ClickException] whose message is the status, [" error for "] and the
    URL, which the command wrapper shows as an error line before exiting
    with status 1; any other three-digit status passes: the check returns
    and does nothing. *)
Theorem default_check_fails_on_error_status (r : response) :
  (100 ≤ status r ≤ 999)%Z →
  ((400 ≤ status r ≤ 599)%Z →
     skip_or_fail r false true
     = ([], Raise (ClickException (pretty (status r) +:+ " error for " +:+ url r))) ∧
     report_of (skip_or_fail r false true).2
     = ErrorLine ("Error: " +:+ pretty (status r) +:+ " error for " +:+ url r) ∧
     exit_status (skip_or_fail r false true).2 = 1%Z) ∧
  (¬ (400 ≤ status r ≤ 599)%Z → skip_or_fail r false true = ([], Ok ())).
Proof.
  intros Hs. pose proof (error_class_three_digits _ Hs) as Hc. split; intros H.
  - rewrite (skip_or_fail_class r false true true); [done|].
    rewrite Hc. f_equal. by apply bool_decide_eq_true.
  - rewrite (skip_or_fail_class r false true false); [done|].
    rewrite Hc. f_equal. by apply bool_decide_eq_false.
Qed.

Section publish_facts.

Variable py_str : json → string.
Variable MAPHUB_KEY : string.
Variable http : request → result json.


(** C5. When the response to the create call is an object with no ["id"]
    key, the publish sequence stops at [data["id"]]: the create request is
    the only one sent, nothing goes to the update or the refresh endpoint,
    and the run ends with the uncaught [KeyError('id')], which the
    interpreter reports in a traceback before exiting with status 1. *)
Theorem create_without_id_aborts trail_title trail_uri trail_geojson (data : gmap string json) :
  http (create_request MAPHUB_KEY trail_title trail_uri) = Ok (JObj data) →
  data !! "id" = None →
  let run := create_maphub_trailmap py_str MAPHUB_KEY http trail_title trail_uri trail_geojson in
  run = ([Print "CREATING MAPHUB MAP"; Post (create_request MAPHUB_KEY trail_title trail_uri)],
         Raise (KeyError (JStr "id"))) ∧
  (∀ r, Post r ∈ run.1 → req_url r ≠ update_url ∧ req_url r ≠ refresh_url) ∧
  report_of run.2 = Traceback (KeyError (JStr "id")) ∧
  exit_status run.2 = 1%Z.
Proof.
  intros Hhttp Hid run.
  assert (Hrun : run = ([Print "CREATING MAPHUB MAP";
                         Post (create_request MAPHUB_KEY trail_title trail_uri)],
                        Raise (KeyError (JStr "id")))).
  { unfold run, create_maphub_trailmap, io_bind, emit, post, io_lift.
    rewrite Hhttp. simpl. by rewrite Hid. }
  rewrite Hrun. split_and!; try done.
  intros r Hr. simpl in Hr.
  apply elem_of_cons in Hr as [[=]|Hr].
  apply list_elem_of_singleton in Hr. injection Hr as ->. by split.
Qed.

Lemma update_map_error map_id geojson (data : gmap string json) error :
  http (update_request MAPHUB_KEY map_id geojson) = Ok (JObj data) →
  data !! "id" = None → data !! "error" = Some error →
  update_map py_str MAPHUB_KEY http map_id geojson
  = ([Post (update_request MAPHUB_KEY map_id geojson); Print (py_str error)], Ok ()).
Proof.
  intros Hhttp Hid Herr.
  unfold update_map, io_bind, emit, post, io_lift. rewrite Hhttp. simpl.
  rewrite Hid, Herr. by rewrite bool_decide_eq_false_2 by by intros [].
Qed.

Lemma refresh_map_image_starts map_id :
  ∃ rest outcome,
    refresh_map_image py_str MAPHUB_KEY http map_id
    = (Print "REFRESHING MAP IMAGE" :: Post (refresh_request MAPHUB_KEY map_id) :: rest,
       outcome).
Proof.
  unfold refresh_map_image, io_bind, emit, post, io_lift.
  destruct (http (refresh_request MAPHUB_KEY map_id)) as [data|e]; [|eauto].
  destruct (contains "id" data) as [[]|e]; simpl; [eauto| |eauto].
  destruct (getitem data "error"); eauto.
Qed.

(** C8. When the response to the update call is an object with no ["id"]
    key, [update_map] prints the error the response holds and returns; the
    publish sequence goes on and sends the refresh request. *)
Theorem update_without_id_continues
    trail_title trail_uri trail_geojson create_data map_id
    (data : gmap string json) error :
  http (create_request MAPHUB_KEY trail_title trail_uri) = Ok create_data →
  getitem create_data "id" = Ok map_id →
  http (update_request MAPHUB_KEY map_id trail_geojson) = Ok (JObj data) →
  data !! "id" = None → data !! "error" = Some error →
  update_map py_str MAPHUB_KEY http map_id trail_geojson
  = ([Post (update_request MAPHUB_KEY map_id trail_geojson); Print (py_str error)], Ok ()) ∧
  ∃ rest outcome,
    create_maphub_trailmap py_str MAPHUB_KEY http trail_title trail_uri trail_geojson
    = ([Print "CREATING MAPHUB MAP";
        Post (create_request MAPHUB_KEY trail_title trail_uri);
        Post (update_request MAPHUB_KEY map_id trail_geojson);
        Print (py_str error);
        Print "REFRESHING MAP IMAGE";
        Post (refresh_request MAPHUB_KEY map_id)] ++ rest, outcome).
Proof.
  intros Hcreate Hmap Hupdate Hid Herr.
  pose proof (update_map_error _ _ _ _ Hupdate Hid Herr) as Hu.
  split; [done|].
  unfold create_maphub_trailmap. unfold io_bind, emit, post, io_lift.
  rewrite Hcreate. simpl. rewrite Hmap. simpl. rewrite Hu.
  destruct (refresh_map_image_starts map_id) as (rest & [[]|e] & ->); simpl.
  - destruct (getitem create_data "url"); simpl; eauto.
  - eauto.
Qed.

End publish_facts.

(** ** Further properties of the merge *)

Section merge_more.

Variable py_str : json → string.

Lemma waypoints_dict_keys ws acc wd :
  waypoints_dict py_str ws acc = Ok wd →
  Forall (λ w, ∃ key, waypoint_key py_str w = Ok key) ws.
Proof.
  revert acc. induction ws as [|w ws IH]; intros acc H; [done|].
  simpl in H. apply rbind_ok in H as (key & Hk & H).
  apply Forall_cons. split; [eauto | by eapply IH].
Qed.

Lemma rmap_ok {A B} (body : A → result B) l ks :
  rmap body l = Ok ks → Forall (λ x, ∃ k, body x = Ok k) l.
Proof.
  revert ks. induction l as [|x l IH]; intros ks H; [done|].
  simpl in H. apply rbind_ok in H as (k & Hk & H).
  apply rbind_ok in H as (ks' & Hks & _).
  apply Forall_cons. split; [eauto | by eapply IH].
Qed.

Lemma last_with_key ws key :
  Forall (λ w, waypoint_key py_str w ≠ Ok key) ws ∨
  ∃ pre w post, ws = pre ++ w :: post ∧ waypoint_key py_str w = Ok key ∧
                Forall (λ w', waypoint_key py_str w' ≠ Ok key) post.
Proof.
  induction ws as [|w ws [IH|(pre & w0 & post & -> & Hk & Hpost)]].
  - by left.
  - destruct (waypoint_key py_str w) as [k|e] eqn:E.
    + destruct (decide (k = key)) as [->|Hne].
      * right. by exists [], w, ws.
      * left. apply Forall_cons. split; [congruence|done].
    + left. apply Forall_cons. split; [congruence|done].
  - right. by exists (w :: pre), w0, post.
Qed.

(** X1. The lookup built at line 49 holds a join key exactly when some
    waypoint has it, and holds under it the last waypoint of the list
    that has it: an earlier waypoint with the same coordinates is
    dropped. *)
Theorem waypoints_dict_last_wins ws wd key :
  waypoints_dict py_str ws ∅ = Ok wd →
  (wd !! key = None ↔ Forall (λ w, waypoint_key py_str w ≠ Ok key) ws) ∧
  (∀ w, wd !! key = Some w ↔
        ∃ pre post, ws = pre ++ w :: post ∧ waypoint_key py_str w = Ok key ∧
                    Forall (λ w', waypoint_key py_str w' ≠ Ok key) post).
Proof.
  intros H. split.
  - split.
    + intros Hnone.
      destruct (last_with_key ws key) as [?|(pre & w & post & Hws & Hk & Hpost)];
        [done|].
      by rewrite (waypoints_dict_last _ _ _ _ _ _ _ _ H Hws Hk Hpost) in Hnone.
    + intros Hall. rewrite (waypoints_dict_absent _ _ _ _ _ H Hall).
      apply lookup_empty.
  - intros w. split.
    + intros Hw. destruct (waypoints_dict_found _ _ _ _ _ _ H Hw)
        as [(pre & post & ? & ? & ?)|[_ ?]]; [eauto|done].
    + intros (pre & post & Hws & Hk & Hpost).
      by eapply waypoints_dict_last.
Qed.

(** X2. [update_geojson] returns only on well-formed input: every
    waypoint has ['lon'] and ['lat'] and a hashable category, and every
    feature is a dict whose geometry, if it has one, has a first and a
    second coordinate.  So a feature whose geometry has a coordinate list
    of fewer than two elements (a polygon of one ring, say) makes it
    raise, whatever the waypoints are. *)
Theorem update_geojson_needs_well_formed g wj t :
  (∀ t' out,
     update_geojson py_str g wj t = (t', Ok out) →
     ∃ ws fs,
       iter wj = Ok ws ∧ getitem g "features" = Ok (JArr fs) ∧
       Forall (λ w, ∃ key category k,
                 waypoint_key py_str w = Ok key ∧
                 get w "pictogramName" JNull = Ok category ∧
                 hash_key category = Ok k) ws ∧
       Forall (λ f, is_dict f ∧
                 (contains "geometry" f = Ok true →
                  ∃ key, feature_key py_str f = Ok key)) fs) ∧
  (∀ fs f geometry cs,
     getitem g "features" = Ok (JArr fs) → f ∈ fs →
     getitem f "geometry" = Ok geometry →
     getitem geometry "coordinates" = Ok (JArr cs) → length cs < 2 →
     ∃ e, (update_geojson py_str g wj t).2 = Raise e).
Proof.
  assert (Hret : ∀ t' out,
     update_geojson py_str g wj t = (t', Ok out) →
     ∃ ws fs,
       iter wj = Ok ws ∧ getitem g "features" = Ok (JArr fs) ∧
       Forall (λ w, ∃ key category k,
                 waypoint_key py_str w = Ok key ∧
                 get w "pictogramName" JNull = Ok category ∧
                 hash_key category = Ok k) ws ∧
       Forall (λ f, is_dict f ∧
                 (contains "geometry" f = Ok true →
                  ∃ key, feature_key py_str f = Ok key)) fs).
  { intros t' out H.
    destruct (update_geojson_ok _ _ _ _ _ _ H)
      as (m & ws & wd & fs & fs1 & i & fmi & p & -> & Hws & Hwd & Hfeats
          & Hloop & [s Hs] & Hfirst & Htest & Hi & Hp & ->).
    exists ws, fs. split_and!; [done|by simpl; rewrite Hfeats| |].
    - pose proof (waypoints_dict_keys _ _ _ Hwd) as Hkeys.
      unfold found_pictograms in Hs. apply rbind_ok in Hs as (ks & Hks & _).
      pose proof (rmap_ok _ _ _ Hks) as Hcats.
      apply Forall_lookup_2. intros j w Hj.
      destruct (Forall_lookup_1 _ _ _ _ Hkeys Hj) as [key Hkey].
      destruct (Forall_lookup_1 _ _ _ _ Hcats Hj) as [k Hk].
      apply rbind_ok in Hk as (category & Hc & Hk). by exists key, category, k.
    - pose proof (for_each_same_but_properties _ _ _ _ _ _ Hloop) as Hsame.
      destruct (for_each_annotate _ _ _ _ _ _ Hloop) as [_ Hall].
      apply Forall_lookup_2. intros j f Hj.
      destruct (Hall j f Hj) as (tj & tj' & f1 & _ & Ha & _ & Hj1). split.
      + eapply same_but_properties_is_dict.
        * by eapply annotate_same_but_properties.
        * apply testable_is_dict. by eapply Forall_lookup_1.
      + intros Hc. destruct (annotate_waypoint_for _ _ _ _ _ _ Ha) as [o Ho].
        unfold waypoint_for in Ho. rewrite Hc in Ho. simpl in Ho.
        apply rbind_ok in Ho as (key & Hk & _). eauto. }
  split; [done|].
  intros fs f geometry cs Hg Hf Hgeo Hcs Hlen.
  apply update_geojson_raises. intros t' out H.
  destruct (Hret t' out H) as (ws & fs' & _ & Hg' & _ & Hfs).
  rewrite Hg in Hg'. injection Hg' as <-.
  apply list_elem_of_lookup in Hf as [j Hj].
  destruct (Forall_lookup_1 _ _ _ _ Hfs Hj) as [[fm ->] Hkey].
  simpl in Hgeo. destruct (fm !! "geometry") as [x|] eqn:Ex; [|done].
  injection Hgeo as ->.
  destruct Hkey as [key Hkey].
  { simpl. rewrite Ex. by rewrite bool_decide_eq_true_2. }
  unfold feature_key in Hkey. apply rbind_ok in Hkey as (c0 & Hc0 & Hkey).
  apply rbind_ok in Hkey as (c1 & Hc1 & _).
  unfold coordinate in Hc1. simpl in Hc1. rewrite Ex in Hc1. simpl in Hc1.
  rewrite Hcs in Hc1. simpl in Hc1.
  destruct (cs !! 1) as [x1|] eqn:E1; [|done].
  apply lookup_lt_Some in E1. lia.
Qed.

Lemma for_each_stored wd fs t t' fs1 k :
  for_each (annotate py_str wd) fs t = (t', Ok fs1) →
  is_Some (t' !! k) ↔
  is_Some (t !! k) ∨
  ∃ f w category,
    f ∈ fs ∧ waypoint_for py_str wd f = Ok (Some w) ∧
    get w "pictogramName" JNull = Ok category ∧ hash_key category = Ok k.
Proof.
  revert t fs1. induction fs as [|f fs IH]; intros t fs1 H; simpl in H.
  - apply ret_ok in H as [-> ->]. split; [by left|].
    intros [?|(f & w & c & Hf & _)]; [done|]. by apply elem_of_nil in Hf.
  - apply bind_ok in H as (ta & fa & Ha & H).
    apply bind_ok in H as (tb & fs1' & Hfs & H). apply ret_ok in H as [-> ->].
    rewrite (IH _ _ Hfs).
    destruct (annotate_waypoint_for _ _ _ _ _ _ Ha) as [[w|] Hw].
    + destruct (annotate_joined _ _ _ _ _ _ _ Hw Ha)
        as (fm & name & elevation & category & k0 & -> & _ & _ & Hc & Hk & -> & _).
      rewrite lookup_insert_is_Some. split.
      * intros [[<-|[_ ?]]|(f & w' & c & Hf & Hrest)].
        -- right. exists (JObj fm), w, category. split; [apply list_elem_of_here|done].
        -- by left.
        -- right. exists f, w', c. split; [by apply list_elem_of_further|done].
      * intros [?|(f & w' & c & Hf & Hw' & Hc' & Hk')].
        -- left. destruct (decide (k0 = k)); [by left|by right].
        -- apply elem_of_cons in Hf as [->|Hf].
           ++ left. left. congruence.
           ++ right. by exists f, w', c.
    + destruct (annotate_unjoined _ _ _ _ _ _ Hw Ha) as [-> _]. split.
      * intros [?|(f' & w' & c & Hf & Hrest)]; [by left|].
        right. exists f', w', c. split; [by apply list_elem_of_further|done].
      * intros [?|(f' & w' & c & Hf & Hw' & Hrest)]; [by left|].
        apply elem_of_cons in Hf as [->|Hf]; [congruence|].
        right. by exists f', w', c.
Qed.

(** X3. What a returning run stores in the table are the categories of
    the waypoints it joins with a feature, and no others: a category is
    in the table afterwards exactly when it was there before or is that
    of a joined waypoint.  The categories line 62 collects for the print
    are not stored. *)
Theorem update_geojson_stores_joined g ws t t' out fs k :
  update_geojson py_str g (JArr ws) t = (t', Ok out) →
  getitem g "features" = Ok (JArr fs) →
  is_Some (t' !! k) ↔
  is_Some (t !! k) ∨
  ∃ f w category,
    f ∈ fs ∧ joined py_str ws f w ∧
    get w "pictogramName" JNull = Ok category ∧ hash_key category = Ok k.
Proof.
  intros H Hg.
  destruct (update_geojson_ok _ _ _ _ _ _ H)
    as (m & ws0 & wd & fs0 & fs1 & i & fmi & p & -> & Hws & Hwd & Hfeats
        & Hloop & _).
  injection Hws as <-. simpl in Hg. rewrite Hfeats in Hg. injection Hg as ->.
  rewrite (for_each_stored _ _ _ _ _ k Hloop).
  split; (intros [?|(f & w & c & Hf & Hw & Hrest)]; [by left|right]);
    exists f, w, c; (split; [done|]); (split; [|done]).
  - by eapply waypoint_for_found.
  - by eapply waypoint_for_joined.
Qed.

(** X4. When no waypoint matches any feature (and so when there is no
    waypoint at all), a returning run changes nothing but the properties
    of the first Point feature, into which it puts the start colour; the
    table is left as it was. *)
Theorem update_geojson_without_match g ws t t' out fs :
  update_geojson py_str g (JArr ws) t = (t', Ok out) →
  getitem g "features" = Ok (JArr fs) →
  Forall (unmatched py_str ws) fs →
  t' = t ∧
  ∃ m i fm p,
    g = JObj m ∧ first_point fs i ∧ fs !! i = Some (JObj fm) ∧
    fm !! "properties" = Some (JObj p) ∧
    out = JObj (<["features" := JArr (<[i := start_colored fm p]> fs)]> m).
Proof.
  intros H Hg Hun.
  destruct (update_geojson_ok _ _ _ _ _ _ H)
    as (m & ws0 & wd & fs0 & fs1 & i & fmi & p & -> & Hws & Hwd & Hfeats
        & Hloop & _ & Hfirst & Htest & Hi & Hp & ->).
  injection Hws as <-. simpl in Hg. rewrite Hfeats in Hg. injection Hg as ->.
  destruct (for_each_annotate _ _ _ _ _ _ Hloop) as [Hlen Hall].
  assert (Hnone : ∀ f, f ∈ fs → ∀ w, waypoint_for py_str wd f ≠ Ok (Some w)).
  { intros f Hf w Hw. rewrite Forall_forall in Hun.
    by pose proof (waypoint_for_unmatched _ _ _ _ _ Hwd Hw (Hun f Hf)). }
  assert (fs1 = fs) as ->.
  { apply list_eq_same_length with (length fs); [done..|].
    intros j f1 f Hlt Hj1 Hj.
    destruct (Hall j f Hj) as (tj & tj' & f1' & _ & Ha & _ & Hj1').
    assert (f1' = f1) as -> by congruence.
    destruct (annotate_waypoint_for _ _ _ _ _ _ Ha) as [[w|] Hw].
    - destruct (Hnone f (list_elem_of_lookup_2 _ _ _ Hj) w Hw).
    - by destruct (annotate_unjoined _ _ _ _ _ _ Hw Ha) as [_ ->]. }
  split.
  - pose proof (grows_for_each (annotate py_str wd) fs (grows_annotate py_str wd)
                  _ _ _ Hloop) as [Hsub _].
    apply map_eq. intros k. destruct (t !! k) as [v|] eqn:E.
    + by eapply lookup_weaken.
    + apply eq_None_not_Some. intros Hsome.
      apply (for_each_stored _ _ _ _ _ k Hloop) in Hsome
        as [Hs|(f & w & c & Hf & Hw & _)].
      * rewrite E in Hs. by destruct Hs.
      * by destruct (Hnone f Hf w).
  - by exists m, i, fmi, p.
Qed.

End merge_more.

(** ** Further properties of the response check *)

Lemma pretty_N_go_first (k : nat) (d rest : N) s :
  (1 ≤ d ≤ 9)%N → (rest < 10 ^ N.of_nat k)%N →
  first_char (pretty_N_go (d * 10 ^ N.of_nat k + rest) s)
  = Ok (String (pretty_N_char d) EmptyString).
Proof.
  revert rest s. induction k as [|k IH]; intros rest s Hd Hrest.
  - simpl in Hrest. assert (rest = 0%N) as -> by lia.
    rewrite N.mul_1_r, N.add_0_r.
    rewrite pretty_N_go_step by lia.
    rewrite N.div_small, N.mod_small by lia. by rewrite pretty_N_go_0.
  - rewrite Nat2N.inj_succ, N.pow_succ_r' in *.
    rewrite pretty_N_go_step by lia.
    replace ((d * (10 * 10 ^ N.of_nat k) + rest) `div` 10)%N
      with (d * 10 ^ N.of_nat k + rest `div` 10)%N.
    + apply IH; [done|]. apply N.Div0.div_lt_upper_bound. lia.
    + replace (d * (10 * 10 ^ N.of_nat k) + rest)%N
        with (rest + (d * 10 ^ N.of_nat k) * 10)%N by lia.
      rewrite N.div_add by lia. lia.
Qed.

Lemma error_class_leading_digit (s d k rest : Z) :
  (1 ≤ d ≤ 9)%Z → (0 ≤ k)%Z → (0 ≤ rest < 10 ^ k)%Z →
  s = (d * 10 ^ k + rest)%Z →
  error_class s = Some (bool_decide (d = 4 ∨ d = 5)%Z).
Proof.
  intros Hd Hk Hrest ->.
  assert (Hpos : (0 < d * 10 ^ k + rest)%Z) by nia.
  destruct (d * 10 ^ k + rest)%Z as [|p|p] eqn:E; try lia.
  unfold error_class, pretty, pretty_Z, pretty_positive, pretty, pretty_N.
  rewrite decide_False by done.
  assert (N.pos p = Z.to_N d * 10 ^ N.of_nat (Z.to_nat k) + Z.to_N rest)%N as ->.
  { apply N2Z.inj. rewrite N2Z.inj_add, N2Z.inj_mul, N2Z.inj_pow.
    rewrite !Z2N.id, nat_N_Z, Z2Nat.id by lia. simpl. lia. }
  rewrite pretty_N_go_first.
  - f_equal.
    assert (d = 1 ∨ d = 2 ∨ d = 3 ∨ d = 4 ∨ d = 5 ∨ d = 6 ∨ d = 7 ∨ d = 8 ∨ d = 9)%Z
      as Hcases by lia.
    destruct Hcases as [->|[->|[->|[->|[->|[->|[->|[->| ->]]]]]]]]; reflexivity.
  - lia.
  - apply N2Z.inj_lt. rewrite N2Z.inj_pow, Z2N.id, nat_N_Z, Z2Nat.id by lia.
    simpl. lia.
Qed.

Lemma pretty_N_go_nonempty x s : s ≠ EmptyString → pretty_N_go x s ≠ EmptyString.
Proof.
  revert s. induction (N.lt_wf_0 x) as [x _ IH]; intros s Hs.
  assert (x = 0 ∨ 0 < x)%N as [->|Hx] by lia.
  - by rewrite pretty_N_go_0.
  - rewrite pretty_N_go_step by done. apply IH; [|done].
    by apply N.div_lt.
Qed.

Lemma error_class_total (s : Z) : ∃ b, error_class s = Some b.
Proof.
  unfold error_class.
  destruct (pretty s) as [|c rest] eqn:E; [|simpl; eauto]. exfalso.
  destruct s as [|p|p]; try discriminate E.
  unfold pretty, pretty_Z, pretty_positive, pretty, pretty_N in E.
  rewrite decide_False in E by done.
  rewrite pretty_N_go_step in E by lia.
  by eapply pretty_N_go_nonempty in E.
Qed.

(** X5. The default-mode check goes by the first decimal digit of the
    status, whatever its length: a positive status whose leading digit is
    4 or 5 (45 and 5000 as well as 404) raises the click error with the
    status and the URL, any other positive status passes, and so does a
    zero or negative status. *)
Theorem default_check_goes_by_first_digit (r : response) :
  (∀ d k rest,
     (1 ≤ d ≤ 9)%Z → (0 ≤ k)%Z → (0 ≤ rest < 10 ^ k)%Z →
     status r = (d * 10 ^ k + rest)%Z →
     skip_or_fail r false true
     = if bool_decide (d = 4 ∨ d = 5)%Z
       then ([], Raise (ClickException (pretty (status r) +:+ " error for " +:+ url r)))
       else ([], Ok ())) ∧
  ((status r ≤ 0)%Z → skip_or_fail r false true = ([], Ok ())).
Proof.
  split.
  - intros d k rest Hd Hk Hrest Hs.
    rewrite (skip_or_fail_class r false true _
               (error_class_leading_digit _ _ _ _ Hd Hk Hrest Hs)).
    simpl. by destruct (bool_decide _).
  - intros Hs. rewrite (skip_or_fail_class r false true false); [done|].
    unfold error_class. destruct (status r) as [|p|p]; [done|lia|done].
Qed.

(** X6. With neither mode set ([skip=False], [fail=False]) the check
    never raises and writes nothing, whatever the status is. *)
Theorem check_without_mode_passes (r : response) :
  skip_or_fail r false false = ([], Ok ()).
Proof.
  destruct (error_class_total (status r)) as [b Hb].
  rewrite (skip_or_fail_class r false false b Hb). simpl. by destruct b.
Qed.

(** ** Further properties of the publish sequence *)

Section publish_more.

Variable py_str : json → string.
Variable MAPHUB_KEY : string.
Variable http : request → result json.

Lemma update_map_posted map_id geojson :
  posted (update_map py_str MAPHUB_KEY http map_id geojson).1
  = [update_request MAPHUB_KEY map_id geojson].
Proof.
  unfold update_map, io_bind, emit, post, io_lift.
  destruct (http _) as [data|e]; [|done].
  destruct (contains "id" data) as [[]|e]; simpl; [done| |done].
  by destruct (getitem data "error").
Qed.

Lemma refresh_map_image_posted map_id :
  posted (refresh_map_image py_str MAPHUB_KEY http map_id).1
  = [refresh_request MAPHUB_KEY map_id].
Proof.
  unfold refresh_map_image, io_bind, emit, post, io_lift.
  destruct (http _) as [data|e]; [|done].
  destruct (contains "id" data) as [[]|e]; simpl; [done| |done].
  by destruct (getitem data "error").
Qed.

Lemma posted_app tr tr' : posted (tr ++ tr') = posted tr ++ posted tr'.
Proof. apply omap_app. Qed.

Lemma create_maphub_trailmap_unfold trail_title trail_uri trail_geojson data map_id :
  http (create_request MAPHUB_KEY trail_title trail_uri) = Ok data →
  getitem data "id" = Ok map_id →
  create_maphub_trailmap py_str MAPHUB_KEY http trail_title trail_uri trail_geojson
  = let '(tru, ru) := update_map py_str MAPHUB_KEY http map_id trail_geojson in
    let head := [Print "CREATING MAPHUB MAP";
                 Post (create_request MAPHUB_KEY trail_title trail_uri)] in
    match ru with
    | Raise e => (head ++ tru, Raise e)
    | Ok _ =>
      let '(trr, rr) := refresh_map_image py_str MAPHUB_KEY http map_id in
      match rr with
      | Raise e => (head ++ tru ++ trr, Raise e)
      | Ok _ =>
        match getitem data "url" with
        | Raise e => (head ++ tru ++ trr, Raise e)
        | Ok map_url =>
          (head ++ tru ++ trr ++
           [Print ("MAP CREATED! ID: '" +:+ py_str map_id +:+ "', TITLE: '"
                   +:+ py_str trail_title +:+ "', URL: '" +:+ py_str map_url +:+ "'")],
           Ok ())
        end
      end
    end.
Proof.
  intros Hcreate Hid.
  unfold create_maphub_trailmap.
  unfold io_bind at 1 2 3 4 5. unfold emit at 1. unfold post at 1. unfold io_lift at 1.
  rewrite Hcreate. simpl. rewrite Hid. simpl.
  destruct (update_map _ _ _ _ _) as [tru [[]|e]]; [|done].
  unfold io_bind.
  destruct (refresh_map_image _ _ _ _) as [trr [[]|e]]; [|done].
  unfold io_lift, emit.
  destruct (getitem data "url") as [map_url|e]; simpl; [|by rewrite app_nil_r].
  done.
Qed.

(** X7. Whatever the service answers, the publish sequence sends at
    least the create request and at most three requests, in the order
    create, update, refresh; each carries the header
    [Authorization: Token <MAPHUB_KEY>], and the update and the refresh
    request both name the id the create response gave. *)
Theorem create_maphub_trailmap_requests trail_title trail_uri trail_geojson :
  let sent := posted (create_maphub_trailmap py_str MAPHUB_KEY http
                        trail_title trail_uri trail_geojson).1 in
  Forall (λ r, req_authorization r = "Token " +:+ MAPHUB_KEY) sent ∧
  (sent = [create_request MAPHUB_KEY trail_title trail_uri] ∨
   ∃ data map_id,
     http (create_request MAPHUB_KEY trail_title trail_uri) = Ok data ∧
     getitem data "id" = Ok map_id ∧
     (sent = [create_request MAPHUB_KEY trail_title trail_uri;
              update_request MAPHUB_KEY map_id trail_geojson] ∨
      sent = [create_request MAPHUB_KEY trail_title trail_uri;
              update_request MAPHUB_KEY map_id trail_geojson;
              refresh_request MAPHUB_KEY map_id])).
Proof.
  intros sent.
  assert (Hsent :
    sent = [create_request MAPHUB_KEY trail_title trail_uri] ∨
    ∃ data map_id,
      http (create_request MAPHUB_KEY trail_title trail_uri) = Ok data ∧
      getitem data "id" = Ok map_id ∧
      (sent = [create_request MAPHUB_KEY trail_title trail_uri;
               update_request MAPHUB_KEY map_id trail_geojson] ∨
       sent = [create_request MAPHUB_KEY trail_title trail_uri;
               update_request MAPHUB_KEY map_id trail_geojson;
               refresh_request MAPHUB_KEY map_id])).
  { unfold sent.
    destruct (http (create_request MAPHUB_KEY trail_title trail_uri)) as [data|e] eqn:Hc.
    - destruct (getitem data "id") as [map_id|e] eqn:Hid.
      + right. exists data, map_id. split_and!; [done..|].
        rewrite (create_maphub_trailmap_unfold _ _ _ _ _ Hc Hid).
        pose proof (update_map_posted map_id trail_geojson) as Hu.
        pose proof (refresh_map_image_posted map_id) as Hr.
        destruct (update_map _ _ _ _ _) as [tru [[]|e]]; simpl in *.
        * destruct (refresh_map_image _ _ _ _) as [trr [[]|e]]; simpl in *.
          -- right. destruct (getitem data "url"); simpl;
               rewrite ?posted_app, Hu, Hr; done.
          -- right. by rewrite posted_app, Hu, Hr.
        * left. by rewrite Hu.
      + left. unfold create_maphub_trailmap, io_bind, emit, post, io_lift.
        rewrite Hc. simpl. by rewrite Hid.
    - left. unfold create_maphub_trailmap, io_bind, emit, post, io_lift.
      by rewrite Hc. }
  split; [|done].
  destruct Hsent as [->|(data & map_id & _ & _ & [->| ->])];
    repeat constructor.
Qed.

(** X8. When the three calls are answered with an id and the create
    response holds a url, the run prints and posts, in this order:
    CREATING MAPHUB MAP, the create request, the update request,
    Map updated, REFRESHING MAP IMAGE, the refresh request, and the final
    line with the id, the title and the url; it returns. *)
Theorem create_maphub_trailmap_success
    trail_title trail_uri trail_geojson create_data map_id map_url
    update_data refresh_data :
  http (create_request MAPHUB_KEY trail_title trail_uri) = Ok create_data →
  getitem create_data "id" = Ok map_id →
  getitem create_data "url" = Ok map_url →
  http (update_request MAPHUB_KEY map_id trail_geojson) = Ok update_data →
  contains "id" update_data = Ok true →
  http (refresh_request MAPHUB_KEY map_id) = Ok refresh_data →
  contains "id" refresh_data = Ok true →
  create_maphub_trailmap py_str MAPHUB_KEY http trail_title trail_uri trail_geojson
  = ([Print "CREATING MAPHUB MAP";
      Post (create_request MAPHUB_KEY trail_title trail_uri);
      Post (update_request MAPHUB_KEY map_id trail_geojson);
      Print "Map updated";
      Print "REFRESHING MAP IMAGE";
      Post (refresh_request MAPHUB_KEY map_id);
      Print ("MAP CREATED! ID: '" +:+ py_str map_id +:+ "', TITLE: '"
             +:+ py_str trail_title +:+ "', URL: '" +:+ py_str map_url +:+ "'")],
     Ok ()).
Proof.
  intros Hc Hid Hurl Hu Huid Hr Hrid.
  rewrite (create_maphub_trailmap_unfold _ _ _ _ _ Hc Hid).
  unfold update_map, refresh_map_image, io_bind, emit, post, io_lift, io_ret.
  rewrite Hu, Hr. simpl. rewrite Huid, Hrid. simpl. by rewrite Hurl.
Qed.

(** X9. A refresh the service rejects is not fatal: when the refresh
    response is an object with an error and no id, the error is printed,
    and the run still prints the final MAP CREATED line and returns,
    after whatever the update printed. *)
Theorem refresh_error_is_not_fatal
    trail_title trail_uri trail_geojson create_data map_id map_url
    update_trace (data : gmap string json) error :
  http (create_request MAPHUB_KEY trail_title trail_uri) = Ok create_data →
  getitem create_data "id" = Ok map_id →
  getitem create_data "url" = Ok map_url →
  update_map py_str MAPHUB_KEY http map_id trail_geojson = (update_trace, Ok ()) →
  http (refresh_request MAPHUB_KEY map_id) = Ok (JObj data) →
  data !! "id" = None → data !! "error" = Some error →
  create_maphub_trailmap py_str MAPHUB_KEY http trail_title trail_uri trail_geojson
  = ([Print "CREATING MAPHUB MAP";
      Post (create_request MAPHUB_KEY trail_title trail_uri)]
     ++ update_trace ++
     [Print "REFRESHING MAP IMAGE";
      Post (refresh_request MAPHUB_KEY map_id);
      Print (py_str error);
      Print ("MAP CREATED! ID: '" +:+ py_str map_id +:+ "', TITLE: '"
             +:+ py_str trail_title +:+ "', URL: '" +:+ py_str map_url +:+ "'")],
     Ok ()).
Proof.
  intros Hc Hid Hurl Hu Hr Hrid Herr.
  rewrite (create_maphub_trailmap_unfold _ _ _ _ _ Hc Hid), Hu.
  unfold refresh_map_image, io_bind, emit, post, io_lift, io_ret.
  rewrite Hr. simpl. rewrite Hrid, Herr.
  rewrite bool_decide_eq_false_2 by by intros []. simpl. by rewrite Hurl.
Qed.

(** X10. A create response with an id but no url is found out last: the
    map is created, updated and refreshed first, and only then does the
    run end with [KeyError('url')], the final line never printed. *)
Theorem create_without_url_fails_last
    trail_title trail_uri trail_geojson (data : gmap string json) map_id
    update_trace refresh_trace :
  http (create_request MAPHUB_KEY trail_title trail_uri) = Ok (JObj data) →
  data !! "id" = Some map_id → data !! "url" = None →
  update_map py_str MAPHUB_KEY http map_id trail_geojson = (update_trace, Ok ()) →
  refresh_map_image py_str MAPHUB_KEY http map_id = (refresh_trace, Ok ()) →
  let run := create_maphub_trailmap py_str MAPHUB_KEY http
               trail_title trail_uri trail_geojson in
  run = ([Print "CREATING MAPHUB MAP";
          Post (create_request MAPHUB_KEY trail_title trail_uri)]
         ++ update_trace ++ refresh_trace,
         Raise (KeyError (JStr "url"))) ∧
  posted run.1 = [create_request MAPHUB_KEY trail_title trail_uri;
                  update_request MAPHUB_KEY map_id trail_geojson;
                  refresh_request MAPHUB_KEY map_id].
Proof.
  intros Hc Hid Hurl Hu Hr run.
  assert (Hrun : run = ([Print "CREATING MAPHUB MAP";
                         Post (create_request MAPHUB_KEY trail_title trail_uri)]
                        ++ update_trace ++ refresh_trace,
                        Raise (KeyError (JStr "url")))).
  { unfold run.
    rewrite (create_maphub_trailmap_unfold _ _ _ (JObj data) map_id Hc);
      [|by simpl; rewrite Hid].
    rewrite Hu, Hr. simpl. by rewrite Hurl. }
  split; [done|]. rewrite Hrun. simpl fst.
  pose proof (update_map_posted map_id trail_geojson) as Hpu.
  pose proof (refresh_map_image_posted map_id) as Hpr.
  rewrite Hu in Hpu. rewrite Hr in Hpr. simpl in Hpu, Hpr.
  change (posted (?a :: ?b :: ?l)) with (posted ([a; b] ++ l)).
  by rewrite !posted_app, Hpu, Hpr.
Qed.

(** X11. A failed update is fatal in two cases, and then no refresh
    request is sent: an exception of the call itself (the connection, or
    a body that is not JSON) ends the run with that exception, and a
    response object with neither id nor error ends it with
    [KeyError('error')]. *)
Theorem update_failure_stops_sequence
    trail_title trail_uri trail_geojson create_data map_id :
  http (create_request MAPHUB_KEY trail_title trail_uri) = Ok create_data →
  getitem create_data "id" = Ok map_id →
  let run := create_maphub_trailmap py_str MAPHUB_KEY http
               trail_title trail_uri trail_geojson in
  let sent := [Print "CREATING MAPHUB MAP";
               Post (create_request MAPHUB_KEY trail_title trail_uri);
               Post (update_request MAPHUB_KEY map_id trail_geojson)] in
  (∀ e, http (update_request MAPHUB_KEY map_id trail_geojson) = Raise e →
        run = (sent, Raise e)) ∧
  (∀ data : gmap string json,
     http (update_request MAPHUB_KEY map_id trail_geojson) = Ok (JObj data) →
     data !! "id" = None → data !! "error" = None →
     run = (sent, Raise (KeyError (JStr "error")))).
Proof.
  intros Hc Hid run sent. unfold run, sent.
  rewrite (create_maphub_trailmap_unfold _ _ _ _ _ Hc Hid).
  unfold update_map, io_bind, emit, post, io_lift.
  split.
  - intros e ->. done.
  - intros data -> Hdid Herr. simpl. rewrite Hdid, Herr.
    by rewrite bool_decide_eq_false_2 by by intros [].
Qed.

End publish_more.

(** ** Properties of the extractor *)

Lemma split_bar_no_bar s :
  Forall (λ c, String c EmptyString ≠ "|") (String.list_ascii_of_string s) →
  split_bar s = [s].
Proof.
  induction s as [|c s IH]; [done|]. simpl. intros H.
  apply Forall_cons in H as [Hc H].
  rewrite decide_False by done. by rewrite IH.
Qed.

Lemma split_bar_first_bar before after :
  Forall (λ c, String c EmptyString ≠ "|") (String.list_ascii_of_string before) →
  split_bar (before +:+ "|" +:+ after) = [before; after].
Proof.
  induction before as [|c s IH]; [done|]. simpl. intros H.
  apply Forall_cons in H as [Hc H].
  rewrite decide_False by done. by rewrite IH.
Qed.

(** X12. The trail title is what follows the first bar of the page title,
    stripped: later bars stay in it.  A page title with no bar raises
    [IndexError]; a page title that is not a string (the script gave
    null, a number, a list or an object) raises [AttributeError]. *)
Theorem trail_title_after_first_bar :
  (∀ before after,
     Forall (λ c, String c EmptyString ≠ "|") (String.list_ascii_of_string before) →
     trail_title_of (JStr (before +:+ "|" +:+ after)) = Ok (strip after)) ∧
  (∀ s,
     Forall (λ c, String c EmptyString ≠ "|") (String.list_ascii_of_string s) →
     trail_title_of (JStr s) = Raise IndexError) ∧
  (∀ title, (∀ s, title ≠ JStr s) → trail_title_of title = Raise AttributeError).
Proof.
  split_and!.
  - intros before after H. unfold trail_title_of.
    by rewrite split_bar_first_bar.
  - intros s H. unfold trail_title_of. by rewrite split_bar_no_bar.
  - intros title H. destruct title; try done. by destruct (H s).
Qed.

Lemma append_cons a (s x : string) : String a s +:+ x = String a (s +:+ x).
Proof. reflexivity. Qed.

Lemma append_assoc (a b c : string) : (a +:+ b) +:+ c = a +:+ (b +:+ c).
Proof. induction a as [|x a IH]; [done|]. by rewrite !append_cons, IH. Qed.

Lemma rev_app_spec s1 s2 : String.rev_app s1 s2 = String.rev s1 +:+ s2.
Proof.
  unfold String.rev. revert s2.
  induction s1 as [|a s1 IH]; intros s2; simpl; [done|].
  rewrite (IH (String a s2)), (IH (String a "")).
  by rewrite append_assoc.
Qed.

Lemma rev_cons a s : String.rev (String a s) = String.rev s +:+ String a "".
Proof. unfold String.rev at 1. simpl. apply rev_app_spec. Qed.

Lemma rev_snoc s a : String.rev (s +:+ String a "") = String a (String.rev s).
Proof.
  induction s as [|b s IH]; [done|].
  by rewrite append_cons, !rev_cons, IH.
Qed.

Lemma rev_involutive s : String.rev (String.rev s) = s.
Proof.
  induction s as [|a s IH]; [done|]. by rewrite rev_cons, rev_snoc, IH.
Qed.

Lemma lstrip_head s : ∀ c r, lstrip s = String c r → is_space c = false.
Proof.
  induction s as [|a s IH]; intros c r; simpl; [done|].
  destruct (is_space a) eqn:E; [apply IH|]. by intros [= <- _].
Qed.

Lemma lstrip_snoc s c :
  is_space c = false → lstrip (s +:+ String c "") = lstrip s +:+ String c "".
Proof.
  intros Hc. induction s as [|a s IH]; simpl; [by rewrite Hc|].
  by destruct (is_space a).
Qed.

Lemma lstrip_fixed s : (∀ c r, s = String c r → is_space c = false) → lstrip s = s.
Proof.
  destruct s as [|a s]; [done|]. intros H. simpl. by rewrite (H a s).
Qed.

Lemma strip_ends s :
  (∀ c r, strip s = String c r → is_space c = false) ∧
  (∀ p c, strip s = p +:+ String c "" → is_space c = false).
Proof.
  unfold strip. split.
  - intros c r H.
    destruct (lstrip s) as [|a l] eqn:El; [done|].
    pose proof (lstrip_head _ _ _ El) as Ha.
    rewrite rev_cons, lstrip_snoc, rev_snoc in H by done.
    by injection H as <- _.
  - intros p c H.
    apply (f_equal String.rev) in H. rewrite rev_involutive, rev_snoc in H.
    by eapply lstrip_head.
Qed.

(** X13. The trail title never begins or ends with a whitespace
    character, and stripping it again changes nothing. *)
Theorem trail_title_is_stripped title t :
  trail_title_of title = Ok t →
  (∀ c r, t = String c r → is_space c = false) ∧
  (∀ p c, t = p +:+ String c "" → is_space c = false) ∧
  strip t = t.
Proof.
  unfold trail_title_of. intros H.
  destruct title as [| | | |s| |]; try done.
  destruct (split_bar s !! 1) as [after|]; [|done].
  injection H as <-.
  destruct (strip_ends after) as [H1 H2]. split_and!; [done..|].
  unfold strip at 1. rewrite (lstrip_fixed (strip after)) by done.
  rewrite lstrip_fixed, rev_involutive; [done|].
  intros c r Hc. apply (H2 (String.rev r) c).
  apply (f_equal String.rev) in Hc. rewrite rev_involutive in Hc.
  by rewrite Hc, rev_cons.
Qed.

Section extract_facts.

Variable fails : call → option string.
Variable goes_to : string → option response.
Variable evaluates : string → json.

Lemma skip_or_fail_default r : ∃ o, skip_or_fail r false true = ([], o).
Proof.
  unfold skip_or_fail, io_bind, io_lift, io_ret. simpl.
  destruct (first_char _); [|eauto].
  destruct (_ || _); eauto.
Qed.

Lemma browser_kwargs_default :
  browser_kwargs default_options
  = {[ "headless" := JBool true; "devtools" := JBool false; "args" := JNull ]}.
Proof. reflexivity. Qed.

Lemma _browser_context_default :
  fails (Launch "chromium" {[ "headless" := JBool true;
                              "devtools" := JBool false;
                              "args" := JNull ]}) = None →
  fails (NewContext ∅) = None →
  _browser_context fails default_options
  = ([Called (Launch "chromium" {[ "headless" := JBool true;
                                   "devtools" := JBool false;
                                   "args" := JNull ]});
      Called (NewContext ∅)], Returned ()).
Proof.
  intros H1 H2. unfold _browser_context, perform, run_bind, run_ret.
  change (engine_of default_options) with "chromium".
  rewrite browser_kwargs_default.
  change (context_args default_options) with (∅ : gmap string json).
  by rewrite H1, H2.
Qed.

(** X14. A page that answers with an error status (400 to 599) ends the
    extraction with the click error of the response check: no script is
    evaluated and [browser_obj.close()] is not called; the only call after
    the navigation is the one that leaves [sync_playwright()]. *)
Theorem get_wikiloc_data_error_status wikiloc_url r :
  Forall (λ c, fails c = None) (opening_calls wikiloc_url ++ [Stop]) →
  goes_to wikiloc_url = Some r →
  (400 ≤ status r ≤ 599)%Z →
  get_wikiloc_data fails goes_to evaluates wikiloc_url
  = (Did (Print ("GETTING WIKILOC DATA FROM URL " +:+ wikiloc_url))
     :: (Called <$> opening_calls wikiloc_url) ++ [Called Stop],
     Raised (ClickException (pretty (status r) +:+ " error for " +:+ url r))).
Proof.
  intros Hf Hgo Hs.
  repeat (apply Forall_cons in Hf as [? Hf]).
  unfold get_wikiloc_data.
  rewrite _browser_context_default by done.
  unfold with_playwright, run_bind, run_io, run_ret, perform, goto, check_response, emit.
  simpl fst. simpl snd. cbv iota beta.
  repeat match goal with H : fails _ = None |- _ => rewrite H; clear H end.
  rewrite Hgo.
  assert (Hclass : error_class (status r) = Some true).
  { rewrite error_class_three_digits by lia.
    by rewrite bool_decide_eq_true_2 by lia. }
  rewrite (skip_or_fail_class r false true true Hclass).
  reflexivity.
Qed.

(** X15. When no call to the browser fails, the page answers with a
    status that is no error (three digits, not 400 to 599) and its title
    holds a bar, the extraction makes the eleven calls of a session in
    order and returns what the scripts gave: the collection, the
    waypoints, the stripped text after the title's first bar, and the
    path. *)
Theorem get_wikiloc_data_returns wikiloc_url r trail_title :
  Forall (λ c, fails c = None) (session_calls wikiloc_url) →
  goes_to wikiloc_url = Some r →
  (100 ≤ status r ≤ 999)%Z → ¬ (400 ≤ status r ≤ 599)%Z →
  trail_title_of (evaluates title_js) = Ok trail_title →
  get_wikiloc_data fails goes_to evaluates wikiloc_url
  = (Did (Print ("GETTING WIKILOC DATA FROM URL " +:+ wikiloc_url))
     :: (Called <$> session_calls wikiloc_url),
     Returned (evaluates trail_geojson_js, evaluates trail_waypoints_js,
               trail_title, evaluates uri_js)).
Proof.
  intros Hf Hgo Hs Hne Ht.
  repeat (apply Forall_cons in Hf as [? Hf]).
  unfold get_wikiloc_data.
  rewrite _browser_context_default by done.
  unfold with_playwright, run_bind, run_io, run_ret, perform, goto, check_response,
    _evaluate_js, emit, io_lift.
  simpl fst. simpl snd. cbv iota beta.
  repeat match goal with H : fails _ = None |- _ => rewrite H; clear H end.
  rewrite Hgo.
  assert (Hclass : error_class (status r) = Some false).
  { rewrite error_class_three_digits by lia.
    by rewrite bool_decide_eq_false_2 by lia. }
  rewrite (skip_or_fail_class r false true false Hclass).
  simpl. rewrite Ht. reflexivity.
Qed.

Ltac not_among :=
  let H := fresh in
  intros H; repeat (apply elem_of_cons in H as [[=]|H]); by apply elem_of_nil in H.

Lemma calls_of_app tr tr' : calls_of (tr ++ tr') = calls_of tr ++ calls_of tr'.
Proof. apply omap_app. Qed.

Lemma calls_of_did (tr : list event) : calls_of (Did <$> tr) = [].
Proof. induction tr; [done|]. simpl. done. Qed.

(** X16. However the browser behaves, an extraction that returns has
    made exactly the eleven calls of a session, the navigation gave a
    response that passed the check, and the values are those of the four
    scripts; an extraction that ends with a raised exception (the check's,
    a script error, a bad title) has not called [browser_obj.close()],
    and its last action is to leave [sync_playwright()]. *)
Theorem get_wikiloc_data_outcomes wikiloc_url :
  let run := get_wikiloc_data fails goes_to evaluates wikiloc_url in
  (∀ v, run.2 = Returned v →
     calls_of run.1 = session_calls wikiloc_url ∧
     ∃ r trail_title,
       goes_to wikiloc_url = Some r ∧
       skip_or_fail r false true = ([], Ok ()) ∧
       trail_title_of (evaluates title_js) = Ok trail_title ∧
       v = (evaluates trail_geojson_js, evaluates trail_waypoints_js,
            trail_title, evaluates uri_js)) ∧
  (∀ e, run.2 = Raised e →
     (Called Close ∉ run.1) ∧ last run.1 = Some (Called Stop)).
Proof.
  intros run. unfold run, get_wikiloc_data.
  unfold _browser_context.
  change (engine_of default_options) with "chromium".
  rewrite browser_kwargs_default.
  change (context_args default_options) with (∅ : gmap string json).
  change (truthy (timeout default_options)) with false. cbv iota.
  unfold with_playwright, run_bind, run_io, run_ret, perform, goto, check_response,
    _evaluate_js, emit, io_lift.
  simpl fst. simpl snd. cbv iota beta.
  destruct (fails Start); [by split|].
  destruct (fails (Launch _ _)); [destruct (fails Stop); by split|].
  destruct (fails (NewContext _)); [destruct (fails Stop); by split|].
  destruct (fails NewPage); [destruct (fails Stop); by split|].
  destruct (fails (Goto _)); [destruct (fails Stop); by split|].
  destruct (goes_to wikiloc_url) as [r|]; simpl.
  2:{ destruct (fails Stop); split; try done.
      intros e [= <-]. split; [not_among|done]. }
  destruct (skip_or_fail_default r) as [[[]|e0] Hr]; rewrite Hr; simpl.
  2:{ destruct (fails Stop); split; try done.
      intros e [= <-]. split; [not_among|done]. }
  destruct (fails (Evaluate trail_geojson_js)); simpl.
  { destruct (fails Stop); split; try done.
    intros e [= <-]. split; [not_among|done]. }
  destruct (fails (Evaluate trail_waypoints_js)); simpl.
  { destruct (fails Stop); split; try done.
    intros e [= <-]. split; [not_among|done]. }
  destruct (fails (Evaluate title_js)); simpl.
  { destruct (fails Stop); split; try done.
    intros e [= <-]. split; [not_among|done]. }
  destruct (trail_title_of (evaluates title_js)) as [t|e0]; simpl.
  2:{ destruct (fails Stop); split; try done.
      intros e [= <-]. split; [not_among|done]. }
  destruct (fails (Evaluate uri_js)); simpl.
  { destruct (fails Stop); split; try done.
    intros e [= <-]. split; [not_among|done]. }
  destruct (fails Close); simpl; [destruct (fails Stop); by split|].
  destruct (fails Stop); [by split|]. split; [|done].
  intros v [= <-]. split; [done|]. by exists r, t.
Qed.

End extract_facts.

(** ** Properties of the command *)

Section main_facts.

Variable fails : call → option string.
Variable goes_to : string → option response.
Variable evaluates : string → json.
Variable py_str : json → string.
Variable MAPHUB_KEY : string.
Variable http : request → result json.

Lemma requests_of_app tr tr' :
  requests_of (tr ++ tr') = requests_of tr ++ requests_of tr'.
Proof. apply omap_app. Qed.

Lemma requests_of_did (tr : list event) : requests_of (Did <$> tr) = posted tr.
Proof.
  induction tr as [|e tr IH]; [done|].
  unfold requests_of, posted in *.
  destruct e; simpl; [exact IH|exact IH|f_equal; exact IH].
Qed.

Lemma requests_of_run_bind {A B} (c : Run A) (k : A → Run B) :
  requests_of c.1 = [] → (∀ a, requests_of (k a).1 = []) →
  requests_of (run_bind c k).1 = [].
Proof.
  intros Hc Hk. destruct c as [tr [a|e|m]]; simpl in *; [|done..].
  specialize (Hk a). destruct (k a) as [tr' o]. simpl in *.
  by rewrite requests_of_app, Hc, Hk.
Qed.

Lemma requests_of_perform c : requests_of (perform fails c).1 = [].
Proof. unfold perform. by destruct (fails c). Qed.

Lemma requests_of_evaluate_js js : requests_of (_evaluate_js fails evaluates js).1 = [].
Proof. unfold _evaluate_js. by destruct (fails _). Qed.

Lemma requests_of_with_playwright {A} (body : Run A) :
  requests_of body.1 = [] → requests_of (with_playwright fails body).1 = [].
Proof.
  intros Hb. unfold with_playwright. destruct (fails Start); [done|].
  destruct body as [tr o]. simpl in Hb.
  destruct (fails Stop); simpl; by rewrite requests_of_app, Hb.
Qed.

Lemma requests_of_check_response r : requests_of (check_response r).1 = [].
Proof.
  unfold check_response, run_io. destruct r as [r|]; [|done]. simpl.
  unfold skip_or_fail, io_bind, io_lift, io_ret. simpl.
  destruct (first_char _); [|done]. by destruct (_ || _).
Qed.

(** The extraction sends nothing to the map service. *)
Lemma requests_of_get_wikiloc_data wikiloc_url :
  requests_of (get_wikiloc_data fails goes_to evaluates wikiloc_url).1 = [].
Proof.
  unfold get_wikiloc_data.
  apply requests_of_run_bind; [done|]. intros _.
  apply requests_of_with_playwright.
  apply requests_of_run_bind.
  { unfold _browser_context.
    apply requests_of_run_bind; [apply requests_of_perform|]. intros _.
    apply requests_of_run_bind; [apply requests_of_perform|]. intros _.
    destruct (truthy _); [apply requests_of_perform|done]. }
  intros _. apply requests_of_run_bind; [apply requests_of_perform|]. intros _.
  apply requests_of_run_bind; [unfold goto; by destruct (fails _)|]. intros r.
  apply requests_of_run_bind; [apply requests_of_check_response|]. intros _.
  apply requests_of_run_bind; [apply requests_of_evaluate_js|]. intros g.
  apply requests_of_run_bind; [apply requests_of_evaluate_js|]. intros w.
  apply requests_of_run_bind; [apply requests_of_evaluate_js|]. intros title.
  apply requests_of_run_bind; [done|]. intros t.
  apply requests_of_run_bind; [apply requests_of_evaluate_js|]. intros uri.
  apply requests_of_run_bind; [apply requests_of_perform|]. done.
Qed.

Lemma run_update_geojson_returns g w t t' out :
  update_geojson py_str g w t = (t', Ok out) →
  run_update_geojson py_str g w t
  = (t', ([PrintedPictograms (pictograms_of w)], Returned out)).
Proof.
  unfold update_geojson, run_update_geojson, bind, lift.
  destruct (join_pass py_str g w t) as [t1 [fs|e]]; [|done].
  destruct (color_start g fs); [|done]. by intros [= -> ->].
Qed.

Lemma run_update_geojson_returned g w t t' tr out :
  run_update_geojson py_str g w t = (t', (tr, Returned out)) →
  update_geojson py_str g w t = (t', Ok out).
Proof.
  unfold update_geojson, run_update_geojson, bind, lift.
  destruct (join_pass py_str g w t) as [t1 [fs|e]]; [|done].
  destruct (color_start g fs); [|done]. by intros [= -> _ ->].
Qed.

Lemma requests_of_run_update_geojson g w t :
  requests_of (run_update_geojson py_str g w t).2.1 = [].
Proof.
  unfold run_update_geojson.
  by destruct (join_pass py_str g w t) as [t1 [fs|e]].
Qed.

(** X17. The command sends a request to the map service only once the
    extraction has returned and the merge of what it returned has
    returned too; the requests are then those of the publish sequence
    run on the trail title, the path and the merged collection, and the
    icon table is as the merge left it. *)
Theorem main_posts_only_after_merge trail_url t :
  requests_of (main fails goes_to evaluates py_str MAPHUB_KEY http trail_url t).2.1 ≠ [] →
  ∃ tr trail_geojson trail_waypoints trail_title trail_uri t' updated_geojson,
    get_wikiloc_data fails goes_to evaluates trail_url
    = (tr, Returned (trail_geojson, trail_waypoints, trail_title, trail_uri)) ∧
    update_geojson py_str trail_geojson trail_waypoints t = (t', Ok updated_geojson) ∧
    (main fails goes_to evaluates py_str MAPHUB_KEY http trail_url t).1 = t' ∧
    requests_of (main fails goes_to evaluates py_str MAPHUB_KEY http trail_url t).2.1
    = posted (create_maphub_trailmap py_str MAPHUB_KEY http
                (JStr trail_title) trail_uri updated_geojson).1.
Proof.
  unfold main.
  pose proof (requests_of_get_wikiloc_data trail_url) as Hq.
  destruct (get_wikiloc_data _ _ _ _) as [tr [[[[g w] title] uri]|e|m]];
    simpl in Hq; [|done..].
  pose proof (requests_of_run_update_geojson g w t) as Hm.
  destruct (run_update_geojson py_str g w t) as [t' [tr' [out|e|m]]] eqn:E;
    simpl in Hm.
  - intros _. exists tr, g, w, title, uri, t', out.
    split_and!; [done|by eapply run_update_geojson_returned|done|].
    unfold run_io. simpl.
    by rewrite !requests_of_app, Hq, Hm, requests_of_did.
  - simpl. by rewrite requests_of_app, Hq, Hm.
  - simpl. by rewrite requests_of_app, Hq, Hm.
Qed.

(** X18. When the extraction and the merge return, the command is their
    composition with the publish sequence: it prints the pictograms found
    after the extraction's actions, runs the publish sequence with the
    title as a string, the path and the merged collection, ends as that
    sequence ends, and leaves the icon table as the merge left it. *)
Theorem main_composes trail_url t tr trail_geojson trail_waypoints trail_title
    trail_uri t' updated_geojson :
  get_wikiloc_data fails goes_to evaluates trail_url
  = (tr, Returned (trail_geojson, trail_waypoints, trail_title, trail_uri)) →
  update_geojson py_str trail_geojson trail_waypoints t = (t', Ok updated_geojson) →
  let publish := create_maphub_trailmap py_str MAPHUB_KEY http
                   (JStr trail_title) trail_uri updated_geojson in
  main fails goes_to evaluates py_str MAPHUB_KEY http trail_url t
  = (t', (tr ++ PrintedPictograms (pictograms_of trail_waypoints) :: (Did <$> publish.1),
          match publish.2 with
          | Ok _ => Returned ()
          | Raise e => Raised e
          end)).
Proof.
  intros Hget Hmerge publish. unfold main.
  rewrite Hget, (run_update_geojson_returns _ _ _ _ _ Hmerge).
  unfold run_io. fold publish.
  destruct (publish.2) as [[]|e]; done.
Qed.

End main_facts.

(** * Worked examples *)

Lemma ex_trail_run :
  update_geojson str_plain ex_trail_geojson (JArr ex_trail_waypoints) MARKER_DICT
  = (ex_trail_table, Ok ex_trail_merged).
Proof. reflexivity. Qed.

Lemma ex_hut_not_first : ¬ first_point ex_trail_features 2.
Proof.
  intros [_ H]. by apply (H 1 (ex_point 1 2 None)); [lia|reflexivity|].
Qed.

Lemma ex_hut_joined : joined str_plain ex_trail_waypoints ex_hut ex_hut_waypoint.
Proof.
  exists "3-4", [ex_waypoint 1 2 "Peak" 850 (Some "Cave")], [].
  split; [by split|]. by split_and!.
Qed.

(** The hut of the trail, which is not its first Point, has exactly the
    three properties, and its note is gone. *)
Lemma update_geojson_joined_witness :
  ∃ fs' fm',
    getitem ex_trail_merged "features" = Ok (JArr fs') ∧
    fs' !! 2 = Some (JObj fm') ∧
    fm' !! "properties"
    = Some (JObj (properties_of str_plain (JStr "Hut") (JInt 1200) "location-pin")).
Proof.
  destruct (update_geojson_joined str_plain [] ex_trail_geojson
              ex_trail_waypoints ex_trail_table ex_trail_merged
              ex_trail_features 2 ex_hut ex_hut_waypoint)
    as (name & elevation & category & k & fs' & fm'
        & Hn & He & Hc & Hk & Hout & Hf & Hnf & _).
  - reflexivity.
  - reflexivity.
  - reflexivity.
  - exact ex_hut_joined.
  - exists fs', fm'. split; [done|]. split; [done|].
    rewrite (Hnf ex_hut_not_first).
    injection Hn as <-. injection He as <-. injection Hc as <-.
    injection Hk as <-. reflexivity.
Defined.

(** C1 as stated fails on the scenario of the specification: the Point,
    joined with the waypoint at its place, is also the first Point, and
    its properties are the three of the join and [marker-color]. *)
Lemma joined_start_has_marker_color :
  update_geojson str_plain ex_peak_geojson ex_peak_waypoints MARKER_DICT
  = (MARKER_DICT, Ok ex_peak_merged) ∧
  (let? fs := getitem ex_peak_merged "features" in
   let? f := getitem_int fs 0 in
   getitem f "properties") = Ok (JObj ex_peak_properties) ∧
  ex_peak_properties ≠ properties_of str_plain (JStr "Peak") (JInt 850) "summit".
Proof.
  split; [reflexivity|]. split; [reflexivity|].
  intros H. apply (f_equal (λ m : gmap string json, m !! "marker-color")) in H.
  discriminate H.
Qed.

Lemma ex_trail_waypoints_usable : Forall (usable_waypoint str_plain) ex_trail_waypoints.
Proof. repeat constructor; by eexists _, _, _. Qed.

Lemma ex_trail_waypoints_described f w :
  joined str_plain ex_trail_waypoints f w → described w.
Proof.
  intros (key & pre & post & _ & Hws & _).
  assert (Hin : w ∈ ex_trail_waypoints).
  { rewrite Hws. apply elem_of_app. right. apply list_elem_of_here. }
  unfold ex_trail_waypoints in Hin.
  repeat (apply elem_of_cons in Hin as [->|Hin]); [by eexists _, _..|].
  by apply elem_of_nil in Hin.
Qed.

Lemma ex_lonely_features_usable : Forall (usable_feature str_plain) ex_lonely_features.
Proof.
  apply List.Forall_cons; [|apply List.Forall_cons; [|apply List.Forall_nil]];
    (split; [by eexists | intros _; by eexists]).
Qed.

Lemma ex_lonely_first_point : first_point ex_lonely_features 1.
Proof.
  split; [by eexists|]. intros [|j] f Hlt Hf; [|lia]. by injection Hf as <-.
Qed.

(** The trail: the run returns its four features, the start (joined
    with the peak) coloured, the cairn that no waypoint is at as it was.
    A path and a cairn away from every waypoint: the run returns, and the
    cairn, the first Point, has the start colour beside its note. *)
Lemma update_geojson_frame_witness :
  update_geojson str_plain ex_trail_geojson (JArr ex_trail_waypoints) MARKER_DICT
  = (ex_trail_table, Ok ex_trail_merged) ∧
  (∃ m fs fs',
     ex_trail_geojson = JObj m ∧ m !! "features" = Some (JArr fs) ∧
     ex_trail_merged = JObj (<["features" := JArr fs']> m) ∧
     length fs' = length fs) ∧
  update_geojson str_plain (ex_collection ex_lonely_features)
    (JArr ex_trail_waypoints) MARKER_DICT
  = (MARKER_DICT, Ok ex_lonely_merged) ∧
  (∃ t' fs' fm' p',
     update_geojson str_plain (ex_collection ex_lonely_features)
       (JArr ex_trail_waypoints) MARKER_DICT
     = (t', Ok (JObj (<["features" := JArr fs']>
                        {[ "type" := JStr "FeatureCollection";
                           "features" := JArr ex_lonely_features ]}))) ∧
     length fs' = length ex_lonely_features ∧
     fs' !! 1 = Some (JObj fm') ∧
     fm' !! "properties" = Some (JObj p') ∧
     p' !! "marker-color" = Some (JStr "#3cc954")).
Proof.
  split; [exact ex_trail_run|]. split; [|split; [reflexivity|]].
  - destruct (proj1 (update_geojson_frame str_plain ex_trail_geojson
                       ex_trail_waypoints MARKER_DICT)
                ex_trail_table ex_trail_merged ex_trail_run)
      as (m & fs & fs' & Hg & Hfeats & Hout & Hlen & _).
    by exists m, fs, fs'.
  - refine (proj2 (update_geojson_frame str_plain (ex_collection ex_lonely_features)
                     ex_trail_waypoints MARKER_DICT)
              {[ "type" := JStr "FeatureCollection";
                 "features" := JArr ex_lonely_features ]}
              ex_lonely_features 1 _ _ _ _ _ _ _ _ _).
    + reflexivity.
    + reflexivity.
    + exact ex_trail_waypoints_usable.
    + exact ex_lonely_features_usable.
    + intros f w _. apply ex_trail_waypoints_described.
    + exact ex_lonely_first_point.
    + reflexivity.
    + right. by eexists.
Defined.

Lemma update_geojson_idempotent_witness :
  update_geojson str_plain ex_trail_merged (JArr ex_trail_waypoints) ex_trail_table
  = (ex_trail_table, Ok ex_trail_merged).
Proof.
  exact (update_geojson_idempotent str_plain ex_trail_geojson
           (JArr ex_trail_waypoints) MARKER_DICT ex_trail_table ex_trail_merged
           ex_trail_run).
Defined.

(** C9 as stated fails on the trail: the hut's category is not in the
    table, and looking it up stores it there. *)
Lemma unlisted_category_is_stored :
  (update_geojson str_plain ex_trail_geojson (JArr ex_trail_waypoints) MARKER_DICT).1
  = <[KStr "Bridge" := "location-pin"]> MARKER_DICT ∧
  MARKER_DICT !! KStr "Bridge" = None ∧
  <[KStr "Bridge" := "location-pin"]> MARKER_DICT ≠ MARKER_DICT.
Proof.
  split; [reflexivity|]. split; [reflexivity|].
  intros H. apply (f_equal (λ t : gmap pykey string, t !! KStr "Bridge")) in H.
  discriminate H.
Qed.

(** A path alone raises [IndexError]; a first Point that no waypoint is
    at and that has no properties raises [KeyError('properties')]. *)
Lemma update_geojson_needs_start_witness :
  update_geojson str_plain (ex_collection ex_path_features)
    (JArr ex_trail_waypoints) MARKER_DICT
  = (MARKER_DICT, Raise IndexError) ∧
  update_geojson str_plain (ex_collection ex_bare_features)
    (JArr ex_trail_waypoints) MARKER_DICT
  = (MARKER_DICT, Raise (KeyError (JStr "properties"))).
Proof.
  split.
  - refine (proj2 (proj1 (proj2 (update_geojson_needs_start str_plain
              (ex_collection ex_path_features) (JArr ex_trail_waypoints)
              MARKER_DICT)) ex_path_features _ _) _ MARKER_DICT ex_path_features _).
    + reflexivity.
    + by repeat constructor.
    + repeat constructor. by eexists.
    + reflexivity.
  - refine (proj2 (proj2 (proj2 (update_geojson_needs_start str_plain
              (ex_collection ex_bare_features) (JArr ex_trail_waypoints)
              MARKER_DICT)) ex_trail_waypoints ex_bare_features 1
              (ex_point 5 6 None) _ _ _ _ _ _) _ MARKER_DICT ex_bare_features _).
    + reflexivity.
    + reflexivity.
    + split; [by eexists|]. intros [|[|j]] f Hlt Hf; [|lia..].
      by injection Hf as <-.
    + reflexivity.
    + intros key [_ Hkey]. injection Hkey as <-. by repeat constructor.
    + reflexivity.
    + repeat constructor; by eexists.
    + reflexivity.
Defined.

Lemma skip_exits_with_success_witness :
  skip_or_fail (ex_response 404) true false
  = ([EchoErr "404 error for https://www.wikiloc.com/hiking-trails/x-1, skipping"],
     Raise SystemExit) ∧
  exit_status (skip_or_fail (ex_response 404) true false).2 = 0%Z.
Proof.
  destruct (skip_exits_with_success (ex_response 404)) as (Hrun & Hexit & _).
  - simpl. lia.
  - split; [exact Hrun | exact Hexit].
Defined.

(** C6 as stated fails on the call [skip_or_fail(response, skip=True)]:
    [fail] is [True] by default, and the two together are refused with a
    [ClickException], status 1. *)
Lemma skip_with_default_fail_is_refused :
  skip_or_fail (ex_response 404) true true
  = ([], Raise (ClickException "--skip and --fail cannot be used together")) ∧
  exit_status (skip_or_fail (ex_response 404) true true).2 = 1%Z.
Proof. by split. Qed.

Lemma default_check_fails_on_error_status_witness :
  skip_or_fail (ex_response 500) false true
  = ([], Raise (ClickException
                  "500 error for https://www.wikiloc.com/hiking-trails/x-1")) ∧
  skip_or_fail (ex_response 200) false true = ([], Ok ()).
Proof.
  split.
  - refine (proj1 (proj1 (default_check_fails_on_error_status (ex_response 500) _) _)).
    + simpl. lia.
    + simpl. lia.
  - refine (proj2 (default_check_fails_on_error_status (ex_response 200) _) _).
    + simpl. lia.
    + simpl. lia.
Defined.

Lemma create_without_id_aborts_witness :
  create_maphub_trailmap str_plain "secret" ex_http_rejects
    (JStr "Trail") (JStr "/hiking-trails/x-1") ex_trail_merged
  = ([Print "CREATING MAPHUB MAP";
      Post (create_request "secret" (JStr "Trail") (JStr "/hiking-trails/x-1"))],
     Raise (KeyError (JStr "id"))).
Proof.
  refine (proj1 (create_without_id_aborts str_plain "secret" ex_http_rejects
            (JStr "Trail") (JStr "/hiking-trails/x-1") ex_trail_merged
            {[ "error" := JStr "Invalid API key" ]} _ _)).
  - reflexivity.
  - reflexivity.
Defined.

Lemma update_without_id_continues_witness :
  update_map str_plain "secret" ex_http_rejects_content (JInt 7) ex_trail_merged
  = ([Post (update_request "secret" (JInt 7) ex_trail_merged);
      Print "Invalid GeoJSON"], Ok ()).
Proof.
  refine (proj1 (update_without_id_continues str_plain "secret"
            ex_http_rejects_content (JStr "Trail") (JStr "/hiking-trails/x-1")
            ex_trail_merged
            (JObj {[ "id" := JInt 7; "url" := JStr "https://maphub.net/u/trail" ]})
            (JInt 7) {[ "error" := JStr "Invalid GeoJSON" ]}
            (JStr "Invalid GeoJSON") _ _ _ _ _)); reflexivity.
Defined.

(** ** Worked examples of the further properties *)

(** Of two waypoints at one place, the lookup holds the later one. *)
Lemma waypoints_dict_last_wins_witness :
  ∃ pre post,
    ex_revisited_waypoints = pre ++ ex_waypoint 1 2 "Peak" 850 (Some "Cave") :: post ∧
    waypoint_key str_plain (ex_waypoint 1 2 "Peak" 850 (Some "Cave")) = Ok "1-2" ∧
    Forall (λ w', waypoint_key str_plain w' ≠ Ok "1-2") post.
Proof.
  refine (proj1 (proj2 (waypoints_dict_last_wins str_plain ex_revisited_waypoints
                          ex_revisited_dict "1-2" _)
                   (ex_waypoint 1 2 "Peak" 850 (Some "Cave"))) _).
  - reflexivity.
  - reflexivity.
Defined.

(** The hut's category is in the table after the merge of the trail: it
    is that of a joined waypoint. *)
Lemma update_geojson_stores_joined_witness :
  is_Some (MARKER_DICT !! KStr "Bridge") ∨
  ∃ f w category,
    f ∈ ex_trail_features ∧ joined str_plain ex_trail_waypoints f w ∧
    get w "pictogramName" JNull = Ok category ∧ hash_key category = Ok (KStr "Bridge").
Proof.
  refine (proj1 (update_geojson_stores_joined str_plain ex_trail_geojson
                   ex_trail_waypoints MARKER_DICT ex_trail_table ex_trail_merged
                   ex_trail_features (KStr "Bridge") _ _) _).
  - reflexivity.
  - reflexivity.
  - by eexists.
Defined.

(** A path and a cairn away from every waypoint: the cairn, the first
    Point, gets the start colour beside its note, and the table stays. *)
Lemma update_geojson_without_match_witness :
  update_geojson str_plain (ex_collection ex_lonely_features)
    (JArr ex_trail_waypoints) MARKER_DICT
  = (MARKER_DICT, Ok ex_lonely_merged) ∧
  ∃ m i fm p,
    ex_collection ex_lonely_features = JObj m ∧ first_point ex_lonely_features i ∧
    ex_lonely_features !! i = Some (JObj fm) ∧
    fm !! "properties" = Some (JObj p) ∧
    ex_lonely_merged
    = JObj (<["features" := JArr (<[i := start_colored fm p]> ex_lonely_features)]> m).
Proof.
  split; [reflexivity|].
  refine (proj2 (update_geojson_without_match str_plain
                   (ex_collection ex_lonely_features) ex_trail_waypoints
                   MARKER_DICT MARKER_DICT ex_lonely_merged ex_lonely_features
                   _ _ _)).
  - reflexivity.
  - reflexivity.
  - apply List.Forall_cons; [|apply List.Forall_cons; [|apply List.Forall_nil]];
      intros key [_ Hkey]; injection Hkey as <-; by repeat constructor.
Defined.

Lemma create_maphub_trailmap_success_witness :
  create_maphub_trailmap str_plain "secret" ex_http_accepts
    (JStr "Trail") (JStr "/hiking-trails/x-1") ex_trail_merged
  = ([Print "CREATING MAPHUB MAP";
      Post (create_request "secret" (JStr "Trail") (JStr "/hiking-trails/x-1"));
      Post (update_request "secret" (JInt 7) ex_trail_merged);
      Print "Map updated";
      Print "REFRESHING MAP IMAGE";
      Post (refresh_request "secret" (JInt 7));
      Print "MAP CREATED! ID: '7', TITLE: 'Trail', URL: 'https://maphub.net/u/trail'"],
     Ok ()).
Proof.
  refine (create_maphub_trailmap_success str_plain "secret" ex_http_accepts
            (JStr "Trail") (JStr "/hiking-trails/x-1") ex_trail_merged
            (JObj {[ "id" := JInt 7; "url" := JStr "https://maphub.net/u/trail" ]})
            (JInt 7) (JStr "https://maphub.net/u/trail")
            (JObj {[ "id" := JInt 7 ]}) (JObj {[ "id" := JInt 7 ]})
            _ _ _ _ _ _ _); reflexivity.
Defined.

Lemma refresh_error_is_not_fatal_witness :
  create_maphub_trailmap str_plain "secret" ex_http_rejects_refresh
    (JStr "Trail") (JStr "/hiking-trails/x-1") ex_trail_merged
  = ([Print "CREATING MAPHUB MAP";
      Post (create_request "secret" (JStr "Trail") (JStr "/hiking-trails/x-1"));
      Post (update_request "secret" (JInt 7) ex_trail_merged);
      Print "Map updated";
      Print "REFRESHING MAP IMAGE";
      Post (refresh_request "secret" (JInt 7));
      Print "Map not found";
      Print "MAP CREATED! ID: '7', TITLE: 'Trail', URL: 'https://maphub.net/u/trail'"],
     Ok ()).
Proof.
  refine (refresh_error_is_not_fatal str_plain "secret" ex_http_rejects_refresh
            (JStr "Trail") (JStr "/hiking-trails/x-1") ex_trail_merged
            (JObj {[ "id" := JInt 7; "url" := JStr "https://maphub.net/u/trail" ]})
            (JInt 7) (JStr "https://maphub.net/u/trail")
            [Post (update_request "secret" (JInt 7) ex_trail_merged);
             Print "Map updated"]
            {[ "error" := JStr "Map not found" ]} (JStr "Map not found")
            _ _ _ _ _ _ _); reflexivity.
Defined.

Lemma create_without_url_fails_last_witness :
  create_maphub_trailmap str_plain "secret" ex_http_no_url
    (JStr "Trail") (JStr "/hiking-trails/x-1") ex_trail_merged
  = ([Print "CREATING MAPHUB MAP";
      Post (create_request "secret" (JStr "Trail") (JStr "/hiking-trails/x-1"));
      Post (update_request "secret" (JInt 7) ex_trail_merged);
      Print "Map updated";
      Print "REFRESHING MAP IMAGE";
      Post (refresh_request "secret" (JInt 7))],
     Raise (KeyError (JStr "url"))).
Proof.
  refine (proj1 (create_without_url_fails_last str_plain "secret" ex_http_no_url
                   (JStr "Trail") (JStr "/hiking-trails/x-1") ex_trail_merged
                   {[ "id" := JInt 7 ]} (JInt 7)
                   [Post (update_request "secret" (JInt 7) ex_trail_merged);
                    Print "Map updated"]
                   [Print "REFRESHING MAP IMAGE";
                    Post (refresh_request "secret" (JInt 7))]
                   _ _ _ _ _)); reflexivity.
Defined.

Lemma update_failure_stops_sequence_witness :
  create_maphub_trailmap str_plain "secret" ex_http_empty_update
    (JStr "Trail") (JStr "/hiking-trails/x-1") ex_trail_merged
  = ([Print "CREATING MAPHUB MAP";
      Post (create_request "secret" (JStr "Trail") (JStr "/hiking-trails/x-1"));
      Post (update_request "secret" (JInt 7) ex_trail_merged)],
     Raise (KeyError (JStr "error"))).
Proof.
  refine (proj2 (update_failure_stops_sequence str_plain "secret"
                   ex_http_empty_update
                   (JStr "Trail") (JStr "/hiking-trails/x-1") ex_trail_merged
                   (JObj {[ "id" := JInt 7; "url" := JStr "https://maphub.net/u/trail" ]})
                   (JInt 7) _ _) ∅ _ _ _); reflexivity.
Defined.

Lemma trail_title_is_stripped_witness :
  trail_title_of (JStr "Wikiloc | Trail of the hut ") = Ok "Trail of the hut" ∧
  strip "Trail of the hut" = "Trail of the hut".
Proof.
  split; [reflexivity|].
  refine (proj2 (proj2 (trail_title_is_stripped
                          (JStr "Wikiloc | Trail of the hut ")
                          "Trail of the hut" _))).
  reflexivity.
Defined.

Lemma get_wikiloc_data_error_status_witness :
  get_wikiloc_data ex_fails (ex_goes_to 404) ex_evaluates ex_url
  = (Did (Print "GETTING WIKILOC DATA FROM URL https://www.wikiloc.com/hiking-trails/x-1")
     :: (Called <$> opening_calls ex_url) ++ [Called Stop],
     Raised (ClickException
               "404 error for https://www.wikiloc.com/hiking-trails/x-1")).
Proof.
  refine (get_wikiloc_data_error_status ex_fails (ex_goes_to 404) ex_evaluates
            ex_url (ex_response 404) _ _ _).
  - by repeat constructor.
  - reflexivity.
  - simpl. lia.
Defined.

Lemma get_wikiloc_data_returns_witness :
  get_wikiloc_data ex_fails (ex_goes_to 200) ex_evaluates ex_url
  = (Did (Print "GETTING WIKILOC DATA FROM URL https://www.wikiloc.com/hiking-trails/x-1")
     :: (Called <$> session_calls ex_url),
     Returned (ex_trail_geojson, JArr ex_trail_waypoints, "Trail of the hut",
               JStr "/hiking-trails/x-1")).
Proof.
  refine (get_wikiloc_data_returns ex_fails (ex_goes_to 200) ex_evaluates
            ex_url (ex_response 200) "Trail of the hut" _ _ _ _ _).
  - by repeat constructor.
  - reflexivity.
  - simpl. lia.
  - simpl. lia.
  - reflexivity.
Defined.

Lemma ex_extraction :
  get_wikiloc_data ex_fails (ex_goes_to 200) ex_evaluates ex_url
  = (Did (Print "GETTING WIKILOC DATA FROM URL https://www.wikiloc.com/hiking-trails/x-1")
     :: (Called <$> session_calls ex_url),
     Returned (ex_trail_geojson, JArr ex_trail_waypoints, "Trail of the hut",
               JStr "/hiking-trails/x-1")).
Proof. reflexivity. Qed.

Lemma main_posts_only_after_merge_witness :
  ∃ tr trail_geojson trail_waypoints trail_title trail_uri t' updated_geojson,
    get_wikiloc_data ex_fails (ex_goes_to 200) ex_evaluates ex_url
    = (tr, Returned (trail_geojson, trail_waypoints, trail_title, trail_uri)) ∧
    update_geojson str_plain trail_geojson trail_waypoints MARKER_DICT
    = (t', Ok updated_geojson) ∧
    (main ex_fails (ex_goes_to 200) ex_evaluates str_plain "secret" ex_http_accepts
       ex_url MARKER_DICT).1 = t' ∧
    requests_of (main ex_fails (ex_goes_to 200) ex_evaluates str_plain "secret"
                   ex_http_accepts ex_url MARKER_DICT).2.1
    = posted (create_maphub_trailmap str_plain "secret" ex_http_accepts
                (JStr trail_title) trail_uri updated_geojson).1.
Proof.
  refine (main_posts_only_after_merge ex_fails (ex_goes_to 200) ex_evaluates
            str_plain "secret" ex_http_accepts ex_url MARKER_DICT _).
  discriminate.
Defined.

Lemma main_composes_witness :
  main ex_fails (ex_goes_to 200) ex_evaluates str_plain "secret" ex_http_accepts
    ex_url MARKER_DICT
  = (ex_trail_table,
     ((Did (Print "GETTING WIKILOC DATA FROM URL https://www.wikiloc.com/hiking-trails/x-1")
       :: (Called <$> session_calls ex_url)) ++
      PrintedPictograms (pictograms_of (JArr ex_trail_waypoints)) ::
      (Did <$> (create_maphub_trailmap str_plain "secret" ex_http_accepts
                  (JStr "Trail of the hut") (JStr "/hiking-trails/x-1")
                  ex_trail_merged).1),
      Returned ())).
Proof.
  refine (main_composes ex_fails (ex_goes_to 200) ex_evaluates str_plain "secret"
            ex_http_accepts ex_url MARKER_DICT _ ex_trail_geojson
            (JArr ex_trail_waypoints) "Trail of the hut" (JStr "/hiking-trails/x-1")
            ex_trail_table ex_trail_merged ex_extraction ex_trail_run).
Defined.
